(** * Nuntius: the connection, channel and application registries

    A shallow embedding of [connection/connection.go] and of the
    [app] package (type [Application] and its methods), with the
    properties of the registries that the specification states.

    Conventions of the embedding.
    - Go maps are [gmap]s; a Go [error] is a [string] (its message), and a
      possibly-nil error is an [option error].
    - [*channel.Channel] values are pointers into a store of channel
      objects, so that the registry and a caller may hold the same object.
      Dereferencing a pointer that has no object is a nil dereference: the
      method panics, which the monad [M] renders as [None].
    - [*connection.Connection] values never change after [New], and the
      code reads them only through their fields; they are plain records.
    - The channel package and the [Trigger...Hook] methods of Application
      are not among the sources; what the Application needs of them is
      modelled from the specification, and marked so.
    - Every method body is one sequential step; the mutexes, which only
      delimit critical sections, have no state of their own here.
    - [glog] output is a list of lines kept in the state.
    - [expvar] counters are [int64]: additions wrap around ([wrap64]).
    - [range] over a Go map visits every entry once in an unspecified
      order; the embedding visits them in the order of [map_to_list], and
      the lemmas about the loops ([collect], the loop of [Disconnect]) hold
      for every order of the entries.
    - [Application.Publish] and [Channel.Publish] are outside the
      properties stated here and are not embedded. *)

From Stdlib Require Import ZArith String List Lia.
From stdpp Require Import base option list gmap fin_maps strings.

Local Open Scope string_scope.
Local Open Scope list_scope.
Local Open Scope Z_scope.

(** Go's [error], by its message; [None] in [option error] is [nil]. *)
Definition error := string.

(** [errors.New] *)
Definition errors_New (msg : string) : error := msg.

(** A function with results [(T, error)]. *)
Inductive result (T : Type) : Type :=
| Ok (v : T)
| Fail (err : error).
Arguments Ok {T} v.
Arguments Fail {T} err.

(** ** glog *)
Module glog.

Inductive Severity := INFO | ERROR.

(** One call of [log.Infof] or [log.Errorf]: the format and the
    arguments as they print. *)
Record Line := mkLine { severity : Severity; format : string; args : list string }.

Definition Infof (fmt : string) (a : list string) : Line := mkLine INFO fmt a.
Definition Errorf (fmt : string) (a : list string) : Line := mkLine ERROR fmt a.

End glog.

(** ** Package connection *)
Module connection.

(** The value held in an interface variable of type [Socket]: a handle
    on a socket of the transport layer. *)
Definition Socket := nat.

(** [type Socket interface { WriteJSON(interface{}) error }]: the
    transport implements the write; it may change the transport's own
    state and may fail. *)
Class SocketImpl (Message Transport : Type) := {
  WriteJSON : Socket → Message → Transport → option error * Transport
}.

(** The field [Sock] is Go's field [Socket]; [CreatedAt] is a reading
    of the clock. *)
Record Connection := mkConnection {
  SocketID : string;
  Sock : Socket;
  CreatedAt : Z
}.

(** [New]; [now] is the reading of [time.Now()]. *)
Definition New (socketID : string) (s : Socket) (now : Z)
  : Connection * list glog.Line :=
  (mkConnection socketID s now,
   [glog.Infof "Creating a new Subscriber %+v" [socketID]]).

(** What [Publish] leaves behind: the receiver, the transport and the
    lines logged. The Go method has no result. *)
Record Published (Transport : Type) := mkPublished {
  receiver : Connection;
  transport : Transport;
  logged : list glog.Line
}.
Arguments mkPublished {Transport}.
Arguments receiver {Transport}.
Arguments transport {Transport}.
Arguments logged {Transport}.

Section Publish.
Context {Message Transport : Type} `{!SocketImpl Message Transport}.

Definition Publish (conn : Connection) (m : Message) (t : Transport)
  : Published Transport :=
  match WriteJSON (Sock conn) m t with
  | (Some err, t') =>
      mkPublished conn t'
        [glog.Errorf "error writing json into Socket, %+v" [err]]
  | (None, t') => mkPublished conn t' []
  end.
End Publish.

(** A socket whose writes always fail and one that records what it is
    given, as test doubles of the interface. *)
Definition BrokenSocket : SocketImpl string unit :=
  {| WriteJSON := λ _ _ t, (Some (errors_New "broken pipe"), t) |}.

Definition RecordingSocket : SocketImpl string (list (Socket * string)) :=
  {| WriteJSON := λ s m t, (None, t ++ [(s, m)]) |}.

End connection.

Global Instance Connection_eq_dec : EqDecision connection.Connection.
Proof. solve_decision. Defined.

(** ** The listeners of a channel

    A listener is a Go function value [func(c *Channel, s *Subscription)]
    (with two more arguments for client events). The only function values
    the program makes for this purpose are the five closures of
    [Application.FindOrCreateChannelByChannelID], each of which calls one
    method of the Application it captured; a listener is named by the
    method it calls. *)
Inductive Listener :=
| CallTriggerChannelOccupiedHook
| CallTriggerChannelVacatedHook
| CallTriggerMemberAddedHook
| CallTriggerMemberRemovedHook
| CallTriggerClientEventHook.

Global Instance Listener_eq_dec : EqDecision Listener.
Proof. solve_decision. Defined.

(** ** Package channel *)
Module channel.

(** A [*Channel]: an address in the store of channel objects. *)
Definition ptr := nat.

(** Modelled from the spec: the channel package is not among the sources.
    The kind of a channel is one of public, private and presence. *)
Inductive Kind := Public | Private | Presence.

(** Modelled from the spec: the kind is derived from the identifier's
    prefix, ["presence-"] giving presence, ["private-"] private, anything
    else public. *)
Definition kind_of_id (id : string) : Kind :=
  if String.prefix "presence-" id then Presence
  else if String.prefix "private-" id then Private
  else Public.

(** Modelled from the spec: a Subscription binds one Connection to one
    Channel and carries the member data (opaque to the core). *)
Record Subscription := mkSubscription {
  Connection : connection.Connection;
  Channel_of : ptr;
  Data : string
}.

(** Modelled from the spec: a Channel has an identifier, a mapping from
    socket identifier to Subscription, and the lifecycle listeners
    supplied at construction (a listener that was not supplied is
    [None] and is not called). The kind, derived from the identifier
    and immutable like it, is read off the identifier. *)
Record Channel := mkChannel {
  ID : string;
  Subscriptions : gmap string Subscription;
  OnOccupied : option Listener;
  OnVacated : option Listener;
  OnMemberAdded : option Listener;
  OnMemberRemoved : option Listener;
  OnClientEvent : option Listener
}.

(** Modelled from the spec: the kind of a channel, derived from its
    identifier's prefix. *)
Definition kind (c : Channel) : Kind := kind_of_id (ID c).

(** Modelled from the spec: the three kind tests [IsPresence()],
    [IsPrivate()] and [IsPublic()] of a channel; the kinds exclude one
    another. *)
Definition IsPresence (c : Channel) : bool :=
  match kind c with Presence => true | _ => false end.
Definition IsPrivate (c : Channel) : bool :=
  match kind c with Private => true | _ => false end.
Definition IsPublic (c : Channel) : bool :=
  match kind c with Public => true | _ => false end.

Definition with_Subscriptions (c : Channel) (r : gmap string Subscription) : Channel :=
  mkChannel (ID c) r (OnOccupied c) (OnVacated c) (OnMemberAdded c)
            (OnMemberRemoved c) (OnClientEvent c).

(** Modelled from the spec: the functional options of [channel.New], as
    [Application.FindOrCreateChannelByChannelID] passes them. *)
Inductive Option :=
| WithChannelOccupiedListener (l : Listener)
| WithChannelVacatedListener (l : Listener)
| WithMemberAddedListener (l : Listener)
| WithMemberRemovedListener (l : Listener)
| WithClientEventListener (l : Listener).

(** Modelled from the spec: an option sets the listener it names. *)
Definition apply_Option (c : Channel) (o : Option) : Channel :=
  match o with
  | WithChannelOccupiedListener l =>
      mkChannel (ID c) (Subscriptions c) (Some l) (OnVacated c)
                (OnMemberAdded c) (OnMemberRemoved c) (OnClientEvent c)
  | WithChannelVacatedListener l =>
      mkChannel (ID c) (Subscriptions c) (OnOccupied c) (Some l)
                (OnMemberAdded c) (OnMemberRemoved c) (OnClientEvent c)
  | WithMemberAddedListener l =>
      mkChannel (ID c) (Subscriptions c) (OnOccupied c) (OnVacated c)
                (Some l) (OnMemberRemoved c) (OnClientEvent c)
  | WithMemberRemovedListener l =>
      mkChannel (ID c) (Subscriptions c) (OnOccupied c) (OnVacated c)
                (OnMemberAdded c) (Some l) (OnClientEvent c)
  | WithClientEventListener l =>
      mkChannel (ID c) (Subscriptions c) (OnOccupied c) (OnVacated c)
                (OnMemberAdded c) (OnMemberRemoved c) (Some l)
  end.

(** Modelled from the spec: [channel.New(id, options...)] makes the
    object of a channel with no subscriber; its address is chosen where
    it is stored. *)
Definition New (id : string) (opts : list Option) : Channel :=
  foldl apply_Option (mkChannel id ∅ None None None None None) opts.

(** One call of a listener, with the arguments it is given: the channel,
    the subscription and, for a client event, the event name and data. *)
Record Call := mkCall {
  callee : Listener;
  on_channel : ptr;
  on_subscription : Subscription;
  on_event : option (string * string)
}.

(** A lifecycle listener is called if it was supplied. *)
Definition fire (slot : option Listener) (self : ptr) (s : Subscription) : list Call :=
  match slot with
  | Some l => [mkCall l self s None]
  | None => []
  end.

(** Modelled from the spec: the error of an unsubscription by a
    connection that is not a member (NotFound). *)
Definition ErrNotFound : error := errors_New "subscription not found".

(** Modelled from the spec: [IsSubscribed(conn)]; a Subscription is
    identified in its channel by the socket identifier. *)
Definition IsSubscribed (c : Channel) (conn : connection.Connection) : bool :=
  bool_decide (is_Some (Subscriptions c !! connection.SocketID conn)).

(** Modelled from the spec: [IsOccupied()] is true iff the roster is
    non-empty. *)
Definition IsOccupied (c : Channel) : bool :=
  negb (bool_decide (dom (Subscriptions c) = (∅ : gset string))).

(** The result of a method of a channel object: the object afterwards,
    the listener calls it made, in order, and the Go result. *)
Record Outcome := mkOutcome {
  after : Channel;
  calls : list Call;
  err : option error
}.

(** Modelled from the spec: [Subscribe(conn, data)] adds a Subscription
    or, if the socket identifier is already present, refreshes the member
    data of the existing one. The first member fires Occupied, before
    MemberAdded; on a presence channel every Subscribe fires MemberAdded,
    on other channels none does. *)
Definition Subscribe (self : ptr) (c : Channel)
           (conn : connection.Connection) (data : string) : Outcome :=
  let id := connection.SocketID conn in
  let s := match Subscriptions c !! id with
           | Some old => mkSubscription (Connection old) (Channel_of old) data
           | None => mkSubscription conn self data
           end in
  mkOutcome
    (with_Subscriptions c (<[id := s]> (Subscriptions c)))
    ((if IsOccupied c then [] else fire (OnOccupied c) self s)
       ++ (if IsPresence c then fire (OnMemberAdded c) self s else []))
    None.

(** Modelled from the spec: [Unsubscribe(conn)] fails with NotFound if
    the connection is not a current member. On success it fires
    MemberRemoved (presence only), then Vacated if the roster has become
    empty. *)
Definition Unsubscribe (self : ptr) (c : Channel)
           (conn : connection.Connection) : Outcome :=
  let id := connection.SocketID conn in
  match Subscriptions c !! id with
  | None => mkOutcome c [] (Some ErrNotFound)
  | Some s =>
      let c' := with_Subscriptions c (delete id (Subscriptions c)) in
      mkOutcome c'
        ((if IsPresence c then fire (OnMemberRemoved c) self s else [])
           ++ (if IsOccupied c' then [] else fire (OnVacated c) self s))
        None
  end.

End channel.

Global Instance Kind_eq_dec : EqDecision channel.Kind.
Proof. solve_decision. Defined.
Global Instance Subscription_eq_dec : EqDecision channel.Subscription.
Proof. solve_decision. Defined.
Global Instance Channel_eq_dec : EqDecision channel.Channel.
Proof. solve_decision. Defined.

(** ** 64-bit counters

    [expvar.Int] holds an [int64] and [Add] wraps around silently. *)
Definition wrap64 (z : Z) : Z := (z + 2 ^ 63) mod 2 ^ 64 - 2 ^ 63.

(** ** Package app *)
Module app.

(** [expvar.Map] restricted to what the Application does with it: every
    variable is an [expvar.Int], made at zero by the first [Add]. *)
Definition expvar_Map := gmap string Z.

Definition expvar_Get (m : gmap string Z) (key : string) : Z := default 0 (m !! key).

Definition expvar_Add (m : gmap string Z) (key : string) (delta : Z) : gmap string Z :=
  <[key := wrap64 (expvar_Get m key + delta)]> m.

Record Application := mkApplication {
  Name : string;
  AppID : string;
  Key : string;
  Secret : string;
  OnlySSL : bool;
  Enabled : bool;
  UserEvents : bool;
  WebHooks : bool;
  URLWebHook : string;
  channels : gmap string channel.ptr;
  connections : gmap string connection.Connection;
  Stats : gmap string Z
}.

(** [NewApplication]; the publication of the map under a global name by
    [expvar.NewMap] is not part of the state. *)
Definition NewApplication (name appID key secret : string)
           (onlySSL enabled userEvents webHooks : bool) (webHookURL : string)
  : Application :=
  mkApplication name appID key secret onlySSL enabled userEvents webHooks
                webHookURL ∅ ∅ ∅.

Definition with_channels (a : Application) (m : gmap string channel.ptr) : Application :=
  mkApplication (Name a) (AppID a) (Key a) (Secret a) (OnlySSL a) (Enabled a)
                (UserEvents a) (WebHooks a) (URLWebHook a)
                m (connections a) (Stats a).

Definition with_connections (a : Application) (m : gmap string connection.Connection)
  : Application :=
  mkApplication (Name a) (AppID a) (Key a) (Secret a) (OnlySSL a) (Enabled a)
                (UserEvents a) (WebHooks a) (URLWebHook a)
                (channels a) m (Stats a).

Definition with_Stats (a : Application) (m : gmap string Z) : Application :=
  mkApplication (Name a) (AppID a) (Key a) (Secret a) (OnlySSL a) (Enabled a)
                (UserEvents a) (WebHooks a) (URLWebHook a)
                (channels a) (connections a) m.

(** Modelled from the spec: the [Trigger...Hook] methods of Application
    are not among the sources. Each translates a lifecycle event into a
    webhook trigger for the external dispatcher, which is given the
    event kind, the channel and, for member and client events, the
    subscription; nothing else of the Application changes. *)
Inductive HookKind :=
| channel_occupied | channel_vacated | member_added | member_removed | client_event.

(** Modelled from the spec: what the dispatcher is given for one trigger
    (for the one Application of the state): the event kind, the channel
    and the optional subscription. *)
Record Webhook := mkWebhook {
  hook : HookKind;
  hook_channel : channel.ptr;
  hook_subscription : option channel.Subscription
}.

(** The state the methods of one Application act on: the Application,
    the store of channel objects its pointers refer to, the log and the
    webhook triggers handed to the dispatcher so far. *)
Record World := mkWorld {
  application : Application;
  objects : gmap channel.ptr channel.Channel;
  logged : list glog.Line;
  dispatched : list Webhook
}.

(** *** The monad of the methods: state, and [None] for a panic *)
Definition M (T : Type) : Type := World → option (T * World).

Definition ret {T} (v : T) : M T := λ w, Some (v, w).

Definition bind {T U} (m : M T) (k : T → M U) : M U :=
  λ w, match m w with
       | Some (v, w') => k v w'
       | None => None
       end.

Definition panic {T} : M T := λ _, None.

Definition gets {T} (f : World → T) : M T := λ w, Some (f w, w).

Definition modify (f : World → World) : M unit := λ w, Some (tt, f w).

Notation "'let!' x ':=' m 'in' k" := (bind m (λ x, k))
  (at level 10, x name, m at level 100, k at level 200).
Notation "'do!' m 'in' k" := (bind m (λ _, k))
  (at level 10, m at level 100, k at level 200).

(** [for _, x := range l { body }] *)
Fixpoint for_range {T} (l : list T) (body : T → M unit) : M unit :=
  match l with
  | [] => ret tt
  | x :: l' => do! body x in for_range l' body
  end.

Definition update_application (f : Application → Application) : M unit :=
  modify (λ w, mkWorld (f (application w)) (objects w) (logged w) (dispatched w)).

Definition log_Infof (fmt : string) (args : list string) : M unit :=
  modify (λ w, mkWorld (application w) (objects w)
                       (logged w ++ [glog.Infof fmt args]) (dispatched w)).

Definition log_Errorf (fmt : string) (args : list string) : M unit :=
  modify (λ w, mkWorld (application w) (objects w)
                       (logged w ++ [glog.Errorf fmt args]) (dispatched w)).

(** [a.Stats.Add(key, delta)] *)
Definition Stats_Add (key : string) (delta : Z) : M unit :=
  update_application (λ a, with_Stats a (expvar_Add (Stats a) key delta)).

(** *** Channel objects behind pointers *)

(** Reading through a [*Channel]. *)
Definition deref (c : channel.ptr) : M channel.Channel :=
  λ w, match objects w !! c with
       | Some ch => Some (ch, w)
       | None => None
       end.

Definition store (c : channel.ptr) (ch : channel.Channel) : M unit :=
  modify (λ w, mkWorld (application w) (<[c := ch]> (objects w))
                       (logged w) (dispatched w)).

(** A new object, at an address no object has. *)
Definition alloc (ch : channel.Channel) : M channel.ptr :=
  let! c := gets (λ w, fresh (dom (objects w))) in
  do! store c ch in
  ret c.

(** Modelled from the spec: a webhook trigger is handed to the dispatcher
    for delivery out of band. *)
Definition trigger (k : HookKind) (c : channel.ptr)
           (s : option channel.Subscription) : M unit :=
  modify (λ w, mkWorld (application w) (objects w) (logged w)
                       (dispatched w ++ [mkWebhook k c s])).

(** Modelled from the spec: the five [Trigger...Hook] methods, missing
    from the sources, each trigger the webhook of their event. *)
Definition TriggerChannelOccupiedHook (c : channel.ptr) : M unit :=
  trigger channel_occupied c None.
Definition TriggerChannelVacatedHook (c : channel.ptr) : M unit :=
  trigger channel_vacated c None.
Definition TriggerMemberAddedHook (c : channel.ptr) (s : channel.Subscription) : M unit :=
  trigger member_added c (Some s).
Definition TriggerMemberRemovedHook (c : channel.ptr) (s : channel.Subscription) : M unit :=
  trigger member_removed c (Some s).
Definition TriggerClientEventHook (c : channel.ptr) (s : channel.Subscription)
           (event data : string) : M unit :=
  trigger client_event c (Some s).

(** Calling a listener runs the body of the closure it stands for, as
    written in [FindOrCreateChannelByChannelID]. *)
Definition call (k : channel.Call) : M unit :=
  let c := channel.on_channel k in
  let s := channel.on_subscription k in
  match channel.callee k with
  | CallTriggerChannelOccupiedHook => TriggerChannelOccupiedHook c
  | CallTriggerChannelVacatedHook => TriggerChannelVacatedHook c
  | CallTriggerMemberAddedHook => TriggerMemberAddedHook c s
  | CallTriggerMemberRemovedHook => TriggerMemberRemovedHook c s
  | CallTriggerClientEventHook =>
      match channel.on_event k with
      | Some (event, data) => TriggerClientEventHook c s event data
      | None => TriggerClientEventHook c s "" ""
      end
  end.

(** A method of the object behind [c] that may change it and call its
    listeners: [c.Subscribe(...)], [c.Unsubscribe(...)]. *)
Definition invoke (c : channel.ptr)
           (method : channel.ptr → channel.Channel → channel.Outcome)
  : M (option error) :=
  let! ch := deref c in
  let o := method c ch in
  do! store c (channel.after o) in
  do! for_range (channel.calls o) call in
  ret (channel.err o).

(** [channel.New(n, options...)] *)
Definition channel_New (n : string) (opts : list channel.Option) : M channel.ptr :=
  alloc (channel.New n opts).

(** [c.Subscribe(conn, data)] *)
Definition c_Subscribe (c : channel.ptr) (conn : connection.Connection)
           (data : string) : M (option error) :=
  invoke c (λ self ch, channel.Subscribe self ch conn data).

(** [c.Unsubscribe(conn)] *)
Definition c_Unsubscribe (c : channel.ptr) (conn : connection.Connection)
  : M (option error) :=
  invoke c (λ self ch, channel.Unsubscribe self ch conn).

(** [c.IsSubscribed(conn)] *)
Definition c_IsSubscribed (c : channel.ptr) (conn : connection.Connection) : M bool :=
  let! ch := deref c in ret (channel.IsSubscribed ch conn).

(** [c.IsOccupied()] *)
Definition c_IsOccupied (c : channel.ptr) : M bool :=
  let! ch := deref c in ret (channel.IsOccupied ch).

(** [c.IsPresence()], [c.IsPrivate()], [c.IsPublic()] *)
Definition c_IsPresence (c : channel.ptr) : M bool :=
  let! ch := deref c in ret (channel.IsPresence ch).
Definition c_IsPrivate (c : channel.ptr) : M bool :=
  let! ch := deref c in ret (channel.IsPrivate ch).
Definition c_IsPublic (c : channel.ptr) : M bool :=
  let! ch := deref c in ret (channel.IsPublic ch).

(** [c.ID] *)
Definition c_ID (c : channel.ptr) : M string :=
  let! ch := deref c in ret (channel.ID ch).

(** *** The methods of Application *)

(** The body of the four filter loops:
    [for _, c := range a.channels { if keep(c) { channels = append(channels, c) } }] *)
Fixpoint collect (keep : channel.ptr → M bool)
         (entries : list (string * channel.ptr)) (acc : list channel.ptr)
  : M (list channel.ptr) :=
  match entries with
  | [] => ret acc
  | (_, c) :: rest =>
      let! k := keep c in
      collect keep rest (if k then acc ++ [c] else acc)
  end.

Definition Channels : M (list channel.ptr) :=
  let! m := gets (λ w, channels (application w)) in
  collect (λ _, ret true) (map_to_list m) [].

Definition PresenceChannels : M (list channel.ptr) :=
  let! m := gets (λ w, channels (application w)) in
  collect c_IsPresence (map_to_list m) [].

Definition PrivateChannels : M (list channel.ptr) :=
  let! m := gets (λ w, channels (application w)) in
  collect c_IsPrivate (map_to_list m) [].

Definition PublicChannels : M (list channel.ptr) :=
  let! m := gets (λ w, channels (application w)) in
  collect c_IsPublic (map_to_list m) [].

Definition FindConnection (socketID : string) : M (result connection.Connection) :=
  let! m := gets (λ w, connections (application w)) in
  match m !! socketID with
  | Some conn => ret (Ok conn)
  | None => ret (Fail (errors_New "connection not found"))
  end.

(** The body of the loop of [Disconnect] over [a.channels]:
    [if c.IsSubscribed(conn) { if err := c.Unsubscribe(conn); err != nil { log.Errorf(...); continue } }] *)
Definition Disconnect_unsubscribe (conn : connection.Connection)
           (entry : string * channel.ptr) : M unit :=
  let c := entry.2 in
  let! subscribed := c_IsSubscribed c conn in
  if subscribed then
    let! err := c_Unsubscribe c conn in
    match err with
    | Some e => log_Errorf "error while calling Channel.Unsubscribe, %+v" [e]
    | None => ret tt
    end
  else ret tt.

Definition Disconnect (socketID : string) : M unit :=
  do! log_Infof "disconnecting socket %+v" [socketID] in
  let! r := FindConnection socketID in
  match r with
  | Fail err => log_Infof "socket not found, %+v" [err]
  | Ok conn =>
      let! m := gets (λ w, channels (application w)) in
      do! for_range (map_to_list m) (Disconnect_unsubscribe conn) in
      let! exists_ :=
        gets (λ w, bool_decide
                     (is_Some (connections (application w) !! connection.SocketID conn))) in
      if negb exists_ then ret tt
      else
        do! update_application
              (λ a, with_connections a (delete (connection.SocketID conn) (connections a))) in
        Stats_Add "TotalConnections" (-1)
  end.

Definition Connect (conn : connection.Connection) : M unit :=
  let! name := gets (λ w, Name (application w)) in
  do! log_Infof "adding a new Connection %s to Application %s"
                [connection.SocketID conn; name] in
  do! update_application
        (λ a, with_connections a (<[connection.SocketID conn := conn]> (connections a))) in
  Stats_Add "TotalConnections" 1.

Definition RemoveChannel (c : channel.ptr) : M unit :=
  let! id := c_ID c in
  let! name := gets (λ w, Name (application w)) in
  do! log_Infof "remove the Channel %s from Application %s" [id; name] in
  do! update_application (λ a, with_channels a (delete id (channels a))) in
  let! presence := c_IsPresence c in
  do! (if presence then Stats_Add "TotalPresenceChannels" (-1) else ret tt) in
  let! private := c_IsPrivate c in
  do! (if private then Stats_Add "TotalPrivateChannels" (-1) else ret tt) in
  let! public := c_IsPublic c in
  do! (if public then Stats_Add "TotalPublicChannels" (-1) else ret tt) in
  Stats_Add "TotalChannels" (-1).

Definition AddChannel (c : channel.ptr) : M unit :=
  let! id := c_ID c in
  let! name := gets (λ w, Name (application w)) in
  do! log_Infof "adding a new Channel %s to Application %s" [id; name] in
  do! update_application (λ a, with_channels a (<[id := c]> (channels a))) in
  let! presence := c_IsPresence c in
  do! (if presence then Stats_Add "TotalPresenceChannels" 1 else ret tt) in
  let! private := c_IsPrivate c in
  do! (if private then Stats_Add "TotalPrivateChannels" 1 else ret tt) in
  let! public := c_IsPublic c in
  do! (if public then Stats_Add "TotalPublicChannels" 1 else ret tt) in
  Stats_Add "TotalChannels" 1.

Definition FindChannelByChannelID (n : string) : M (result channel.ptr) :=
  let! m := gets (λ w, channels (application w)) in
  match m !! n with
  | Some c => ret (Ok c)
  | None => ret (Fail (errors_New "channel does not exists"))
  end.

Definition FindOrCreateChannelByChannelID (n : string) : M channel.ptr :=
  let! r := FindChannelByChannelID n in
  match r with
  | Fail _ =>
      let! c := channel_New n
                  [ channel.WithChannelOccupiedListener CallTriggerChannelOccupiedHook;
                    channel.WithChannelVacatedListener CallTriggerChannelVacatedHook;
                    channel.WithMemberAddedListener CallTriggerMemberAddedHook;
                    channel.WithMemberRemovedListener CallTriggerMemberRemovedHook;
                    channel.WithClientEventListener CallTriggerClientEventHook ] in
      do! AddChannel c in
      ret c
  | Ok c => ret c
  end.

Definition Unsubscribe (c : channel.ptr) (conn : connection.Connection)
  : M (option error) :=
  let! err := c_Unsubscribe c conn in
  match err with
  | Some e => ret (Some e)
  | None =>
      let! occupied := c_IsOccupied c in
      do! (if negb occupied then RemoveChannel c else ret tt) in
      ret None
  end.

Definition Subscribe (c : channel.ptr) (conn : connection.Connection) (data : string)
  : M (option error) :=
  c_Subscribe c conn data.

(** [Application.Publish]. The event type [events.Raw] and
    [Channel.Publish] are not among the sources; they are parameters:
    [Raw] is the type of events and [c_Publish c event ignore] is the call
    [c.Publish(event, ignore)]. *)
Section ApplicationPublish.
Context {Raw : Type}.
Variable c_Publish : channel.ptr → Raw → string → M (option error).

Definition Publish (c : channel.ptr) (event : Raw) (ignore : string) : M (option error) :=
  do! Stats_Add "TotalUniqueMessages" 1 in
  c_Publish c event ignore.
End ApplicationPublish.

(** *** Sequences of calls *)

(** The four registry operations, as a caller issues them. *)
Inductive Op :=
| OpConnect (conn : connection.Connection)
| OpDisconnect (socketID : string)
| OpAddChannel (c : channel.ptr)
| OpRemoveChannel (c : channel.ptr).

Definition exec (o : Op) : M unit :=
  match o with
  | OpConnect conn => Connect conn
  | OpDisconnect socketID => Disconnect socketID
  | OpAddChannel c => AddChannel c
  | OpRemoveChannel c => RemoveChannel c
  end.

Definition run (ops : list Op) : M unit := for_range ops exec.

(** A fresh Application beside a store of channel objects made
    elsewhere with [channel.New]. *)
Definition fresh_world (a : Application) (objs : gmap channel.ptr channel.Channel) : World :=
  mkWorld a objs [] [].

End app.

(** * Vocabulary of the properties, and scenarios *)

Import app.

(** ** Proof automation *)

(** Closes a conjunction of closed equations, one evaluation each, in
    order, so that an existential witness is fixed by the first equation
    that names it. *)
Ltac by_evaluation :=
  repeat (lazymatch goal with |- _ ∧ _ => split end; [vm_compute; reflexivity|]);
  vm_compute; reflexivity.

Ltac run_method :=
  repeat (progress
            (unfold bind, gets, modify, ret, update_application, log_Infof, log_Errorf,
               Stats_Add, c_ID, c_IsPresence, c_IsPrivate, c_IsPublic, c_IsOccupied,
               c_IsSubscribed, deref, store, modify,
               channel.IsPresence, channel.IsPrivate, channel.IsPublic; cbn)).

(** ** Counters *)

Definition int64 (z : Z) : Prop := - 2 ^ 63 ≤ z < 2 ^ 63.

(** The counters of an Application, by name. *)
Definition TotalConnections (a : Application) : Z := expvar_Get (Stats a) "TotalConnections".
Definition TotalChannels (a : Application) : Z := expvar_Get (Stats a) "TotalChannels".
Definition TotalPresenceChannels (a : Application) : Z :=
  expvar_Get (Stats a) "TotalPresenceChannels".
Definition TotalPrivateChannels (a : Application) : Z :=
  expvar_Get (Stats a) "TotalPrivateChannels".
Definition TotalPublicChannels (a : Application) : Z :=
  expvar_Get (Stats a) "TotalPublicChannels".

(** The name of the counter that [AddChannel] and [RemoveChannel] adjust
    for a channel of a given kind. *)
Definition kind_counter (k : channel.Kind) : string :=
  match k with
  | channel.Presence => "TotalPresenceChannels"
  | channel.Private => "TotalPrivateChannels"
  | channel.Public => "TotalPublicChannels"
  end.

(** What the three kind tests and the four [Stats.Add] of [AddChannel]
    ([delta = 1]) and [RemoveChannel] ([delta = -1]) amount to for a
    channel of kind [k]. *)
Definition adjust_counters (delta : Z) (k : channel.Kind) (stats : gmap string Z)
  : gmap string Z :=
  expvar_Add (expvar_Add stats (kind_counter k) delta) "TotalChannels" delta.

(** The counters agree with the registries. *)
Definition counters_match (a : Application) : Prop :=
  TotalConnections a = Z.of_nat (size (connections a))
  ∧ TotalChannels a = Z.of_nat (size (channels a))
  ∧ TotalPresenceChannels a + TotalPrivateChannels a + TotalPublicChannels a
    = TotalChannels a.

(** The number of registry entries whose identifier is of kind [k]. *)
Definition registered_of_kind (k : channel.Kind) (m : gmap string channel.ptr) : nat :=
  size (filter (λ e : string * channel.ptr, channel.kind_of_id e.1 = k) m).

(** The invariant behind [counters_match]: each counter is the int64
    image of the number it counts. *)
Definition counters_track (a : Application) : Prop :=
  TotalConnections a = wrap64 (Z.of_nat (size (connections a)))
  ∧ TotalChannels a = wrap64 (Z.of_nat (size (channels a)))
  ∧ ∀ k, expvar_Get (Stats a) (kind_counter k)
         = wrap64 (Z.of_nat (registered_of_kind k (channels a))).

(** ** Channel objects, listeners and queries *)

(** What the listener that a call names hands to the webhook dispatcher. *)
Definition webhook_of (k : channel.Call) : Webhook :=
  match channel.callee k with
  | CallTriggerChannelOccupiedHook => mkWebhook channel_occupied (channel.on_channel k) None
  | CallTriggerChannelVacatedHook => mkWebhook channel_vacated (channel.on_channel k) None
  | CallTriggerMemberAddedHook =>
      mkWebhook member_added (channel.on_channel k) (Some (channel.on_subscription k))
  | CallTriggerMemberRemovedHook =>
      mkWebhook member_removed (channel.on_channel k) (Some (channel.on_subscription k))
  | CallTriggerClientEventHook =>
      mkWebhook client_event (channel.on_channel k) (Some (channel.on_subscription k))
  end.

(** The object that [FindOrCreateChannelByChannelID] makes for [n]. *)
Definition wired_channel (n : string) : channel.Channel :=
  channel.mkChannel n ∅
    (Some CallTriggerChannelOccupiedHook) (Some CallTriggerChannelVacatedHook)
    (Some CallTriggerMemberAddedHook) (Some CallTriggerMemberRemovedHook)
    (Some CallTriggerClientEventHook).

(** [l] lists the channels of the registry whose object passes [keep],
    one occurrence for each entry: there are the keys [ks] of exactly
    those entries, each once, and [l] holds their pointers in step. *)
Definition lists_registered (w : World) (keep : channel.Channel → bool)
           (l : list channel.ptr) : Prop :=
  ∃ ks : list string,
    NoDup ks
    ∧ (∀ k, k ∈ ks ↔ ∃ c ch, channels (application w) !! k = Some c
                              ∧ objects w !! c = Some ch ∧ keep ch = true)
    ∧ Forall2 (λ k c, channels (application w) !! k = Some c) ks l.

(** From [w] to [w'] every channel object is still there, and [conn] was
    subscribed to none it was not subscribed to before. *)
Definition stays_off (conn : connection.Connection) (w w' : World) : Prop :=
  ∀ c ch, objects w !! c = Some ch →
          ∃ ch', objects w' !! c = Some ch'
                 ∧ (channel.IsSubscribed ch conn = false →
                    channel.IsSubscribed ch' conn = false).

(** ** Disciplined use of the registry operations *)

(** The calls under which the counters stay exact: [Connect] of a socket
    identifier the registry does not hold, [AddChannel] of a channel whose
    identifier the registry does not hold, [RemoveChannel] of a channel
    whose identifier the registry holds; any [Disconnect]. *)
Definition well_used (o : Op) (w : World) : bool :=
  match o with
  | OpConnect conn =>
      bool_decide (connections (application w) !! connection.SocketID conn = None)
  | OpDisconnect _ => true
  | OpAddChannel c =>
      match objects w !! c with
      | Some ch => bool_decide (channels (application w) !! channel.ID ch = None)
      | None => false
      end
  | OpRemoveChannel c =>
      match objects w !! c with
      | Some ch => bool_decide (is_Some (channels (application w) !! channel.ID ch))
      | None => false
      end
  end.

(** Runs the calls in order as long as each is well used and returns. *)
Fixpoint run_well_used (ops : list Op) (w : World) : option World :=
  match ops with
  | [] => Some w
  | o :: rest =>
      if well_used o w then
        match exec o w with
        | Some (_, w') => run_well_used rest w'
        | None => None
        end
      else None
  end.

(** ** Concrete states *)

Definition demo_app : Application :=
  NewApplication "demo" "1" "key" "secret" false true true true "http://hooks".

Definition sock1 : connection.Connection := connection.mkConnection "sock-1" 1%nat 100.
Definition sock1' : connection.Connection := connection.mkConnection "sock-1" 7%nat 200.
Definition sock2 : connection.Connection := connection.mkConnection "sock-2" 2%nat 101.

(** A registry that already holds a connection for ["sock-1"]. *)
Definition world_with_sock1 : World :=
  mkWorld (with_connections demo_app {[ "sock-1" := sock1 ]}) ∅ [] [].

(** A fresh Application beside one channel object that was never added. *)
Definition world_with_stray_channel : World :=
  fresh_world demo_app {[ 0%nat := channel.New "presence-lobby" [] ]}.

(** The state after: connect ["sock-1"], find or create
    ["presence-room"], subscribe ["sock-1"] to it. *)
Definition subscribed_scenario : M channel.ptr :=
  do! Connect sock1 in
  let! c := FindOrCreateChannelByChannelID "presence-room" in
  let! _ := Subscribe c sock1 "{user_id:u1}" in
  ret c.

Definition world_subscribed : World :=
  match subscribed_scenario (fresh_world demo_app ∅) with
  | Some (_, w) => w
  | None => fresh_world demo_app ∅
  end.

(** The channel object of ["presence-room"] in that state. *)
Definition presence_room_with_sock1 : channel.Channel :=
  channel.mkChannel "presence-room"
    {[ "sock-1" := channel.mkSubscription sock1 0%nat "{user_id:u1}" ]}
    (Some CallTriggerChannelOccupiedHook) (Some CallTriggerChannelVacatedHook)
    (Some CallTriggerMemberAddedHook) (Some CallTriggerMemberRemovedHook)
    (Some CallTriggerClientEventHook).

(** A registry with one channel of each kind and a second public one. *)
Definition four_channels_scenario : M unit :=
  let! _ := FindOrCreateChannelByChannelID "presence-room" in
  let! _ := FindOrCreateChannelByChannelID "private-chat" in
  let! _ := FindOrCreateChannelByChannelID "lobby" in
  let! _ := FindOrCreateChannelByChannelID "news" in
  ret tt.

Definition world_four_channels : World :=
  match four_channels_scenario (fresh_world demo_app ∅) with
  | Some (_, w) => w
  | None => fresh_world demo_app ∅
  end.

(** Two channel objects made with [channel.New] and not yet added. *)
Definition two_unregistered_channels : gmap channel.ptr channel.Channel :=
  {[ 0%nat := channel.New "presence-room" []; 1%nat := channel.New "lobby" [] ]}.

Definition well_used_calls : list Op :=
  [ OpConnect sock1; OpConnect sock2; OpAddChannel 0%nat; OpAddChannel 1%nat;
    OpDisconnect "sock-1"; OpDisconnect "sock-1"; OpRemoveChannel 1%nat ].

Definition world_after_well_used_calls : World :=
  match run_well_used well_used_calls (fresh_world demo_app two_unregistered_channels) with
  | Some w => w
  | None => fresh_world demo_app two_unregistered_channels
  end.

(** ** Calls of the whole interface *)

(** The calls of the Application that change its state, as the transport
    layer issues them. *)
Inductive Api :=
| ApiConnect (conn : connection.Connection)
| ApiDisconnect (socketID : string)
| ApiAddChannel (c : channel.ptr)
| ApiRemoveChannel (c : channel.ptr)
| ApiFindOrCreateChannelByChannelID (n : string)
| ApiSubscribe (c : channel.ptr) (conn : connection.Connection) (data : string)
| ApiUnsubscribe (c : channel.ptr) (conn : connection.Connection).

Definition api_exec (a : Api) : M unit :=
  match a with
  | ApiConnect conn => Connect conn
  | ApiDisconnect socketID => Disconnect socketID
  | ApiAddChannel c => AddChannel c
  | ApiRemoveChannel c => RemoveChannel c
  | ApiFindOrCreateChannelByChannelID n =>
      let! _ := FindOrCreateChannelByChannelID n in ret tt
  | ApiSubscribe c conn data => let! _ := Subscribe c conn data in ret tt
  | ApiUnsubscribe c conn => let! _ := Unsubscribe c conn in ret tt
  end.

Definition api_run (calls : list Api) : M unit := for_range calls api_exec.

(** The channel pointer a call is given, if any. *)
Definition pointer_of (a : Api) : option channel.ptr :=
  match a with
  | ApiAddChannel c | ApiRemoveChannel c | ApiSubscribe c _ _ | ApiUnsubscribe c _ => Some c
  | ApiConnect _ | ApiDisconnect _ | ApiFindOrCreateChannelByChannelID _ => None
  end.

(** The call is given no nil pointer. *)
Definition pointer_valid (a : Api) (w : World) : bool :=
  match pointer_of a with
  | Some c => bool_decide (is_Some (objects w !! c))
  | None => true
  end.

(** No call of the sequence is given a nil pointer, in the state it is
    issued in. *)
Fixpoint pointers_valid (calls : list Api) (w : World) : Prop :=
  match calls with
  | [] => True
  | a :: rest =>
      pointer_valid a w = true
      ∧ ∀ w', api_exec a w = Some (tt, w') → pointers_valid rest w'
  end.

(** Both registries are keyed as the code files their entries: a
    connection under its own socket identifier, a channel under the
    identifier of its object, which exists. *)
Definition registry_keyed (w : World) : Prop :=
  (∀ k conn, connections (application w) !! k = Some conn → connection.SocketID conn = k)
  ∧ (∀ k c, channels (application w) !! k = Some c →
            ∃ ch, objects w !! c = Some ch ∧ channel.ID ch = k).

(** A channel object with one socket identifier off its roster. *)
Definition without_socket (socketID : string) (ch : channel.Channel) : channel.Channel :=
  channel.with_Subscriptions ch (delete socketID (channel.Subscriptions ch)).

(** The calls under which the counters stay exact, over the whole
    interface: as [well_used], with [Unsubscribe] like [RemoveChannel]
    (it may call it) and no condition on [FindOrCreateChannelByChannelID]
    and [Subscribe]. *)
Definition api_well_used (a : Api) (w : World) : bool :=
  match a with
  | ApiConnect conn => well_used (OpConnect conn) w
  | ApiDisconnect socketID => true
  | ApiAddChannel c => well_used (OpAddChannel c) w
  | ApiRemoveChannel c | ApiUnsubscribe c _ => well_used (OpRemoveChannel c) w
  | ApiFindOrCreateChannelByChannelID _ => true
  | ApiSubscribe c _ _ => bool_decide (is_Some (objects w !! c))
  end.

Fixpoint api_run_well_used (calls : list Api) (w : World) : option World :=
  match calls with
  | [] => Some w
  | a :: rest =>
      if api_well_used a w then
        match api_exec a w with
        | Some (_, w') => api_run_well_used rest w'
        | None => None
        end
      else None
  end.

(** The calls of a session: two sockets connect and join a presence
    channel, one leaves, both disconnect, and a public channel is opened
    and left. *)
Definition session_calls : list Api :=
  [ ApiConnect sock1; ApiConnect sock2;
    ApiFindOrCreateChannelByChannelID "presence-room";
    ApiSubscribe 0%nat sock1 "{user_id:u1}";
    ApiSubscribe 0%nat sock2 "{user_id:u2}";
    ApiUnsubscribe 0%nat sock1;
    ApiFindOrCreateChannelByChannelID "lobby";
    ApiSubscribe 1%nat sock1 "";
    ApiUnsubscribe 1%nat sock1;
    ApiDisconnect "sock-1";
    ApiUnsubscribe 0%nat sock2;
    ApiDisconnect "sock-2" ].

Definition world_after_session : World :=
  match api_run session_calls (fresh_world demo_app ∅) with
  | Some (_, w) => w
  | None => fresh_world demo_app ∅
  end.

(** A [Channel.Publish] that always fails, as a stand-in for the
    parameter of [Publish]. *)
Definition failing_c_Publish (c : channel.ptr) (event ignore : string) : M (option error) :=
  ret (Some (errors_New "publish failed")).

(** Two sockets connected and subscribed to ["presence-room"], beside a
    channel object that is not registered and has ["sock-1"] on its
    roster. *)
Definition two_members_calls : list Api :=
  [ ApiConnect sock1; ApiConnect sock2;
    ApiFindOrCreateChannelByChannelID "presence-room";
    ApiSubscribe 1%nat sock1 "{user_id:u1}";
    ApiSubscribe 1%nat sock2 "{user_id:u2}";
    ApiSubscribe 0%nat sock1 "" ].

Definition world_two_members : World :=
  match api_run two_members_calls
                (fresh_world demo_app {[ 0%nat := channel.New "private-chat" [] ]}) with
  | Some (_, w) => w
  | None => fresh_world demo_app ∅
  end.

(** The kind test [keep] on the object behind [c]. *)
Definition kept_by (w : World) (keep : channel.Channel → bool) (c : channel.ptr) : bool :=
  match objects w !! c with
  | Some ch => keep ch
  | None => false
  end.

(** A socket joins a channel by its name and leaves it again:
    [c := a.FindOrCreateChannelByChannelID(n); a.Subscribe(c, conn, data);
    a.Unsubscribe(c, conn)]. *)
Definition join_and_leave (n : string) (conn : connection.Connection) (data : string)
  : M (channel.ptr * option error * option error) :=
  let! c := FindOrCreateChannelByChannelID n in
  let! joined := Subscribe c conn data in
  let! left := Unsubscribe c conn in
  ret (c, joined, left).

(** Checks [pointers_valid] on a concrete sequence, call by call. *)
Ltac check_pointers :=
  repeat (cbn [pointers_valid];
          split; [vm_compute; reflexivity
                 | let w' := fresh "w" in
                   let H := fresh "Hstep" in
                   intros w' H; vm_compute in H; injection H as <-]);
  exact I.

(** * Properties *)

(** ** Sanity checks of the embedding on concrete inputs *)

Example kind_of_id_examples :
  channel.kind_of_id "presence-room" = channel.Presence
  ∧ channel.kind_of_id "private-room" = channel.Private
  ∧ channel.kind_of_id "room" = channel.Public
  ∧ channel.kind_of_id "presence" = channel.Public.
Proof. repeat split; reflexivity. Qed.

Example wrap64_examples :
  wrap64 5 = 5 ∧ wrap64 (-1) = -1
  ∧ wrap64 (2 ^ 63) = - 2 ^ 63 ∧ wrap64 (- 2 ^ 63 - 1) = 2 ^ 63 - 1.
Proof. repeat split; reflexivity. Qed.

(** ** Counters *)

Lemma wrap64_id z : int64 z → wrap64 z = z.
Proof.
  unfold int64, wrap64. intros Hz.
  rewrite Z.mod_small by lia. lia.
Qed.

Lemma wrap64_int64 z : int64 (wrap64 z).
Proof.
  unfold int64, wrap64.
  pose proof (Z.mod_pos_bound (z + 2 ^ 63) (2 ^ 64) ltac:(lia)). lia.
Qed.

Lemma wrap64_add_l a b : wrap64 (wrap64 a + b) = wrap64 (a + b).
Proof.
  unfold wrap64.
  replace ((a + 2 ^ 63) mod 2 ^ 64 - 2 ^ 63 + b + 2 ^ 63)
    with ((a + 2 ^ 63) mod 2 ^ 64 + b) by lia.
  rewrite Zplus_mod_idemp_l. f_equal. f_equal. lia.
Qed.

Lemma wrap64_sub_l a b : wrap64 (wrap64 a - b) = wrap64 (a - b).
Proof. unfold Z.sub. apply wrap64_add_l. Qed.

Lemma expvar_Get_Add_eq m key delta :
  expvar_Get (expvar_Add m key delta) key = wrap64 (expvar_Get m key + delta).
Proof. unfold expvar_Add, expvar_Get at 1. by rewrite lookup_insert_eq. Qed.

Lemma expvar_Get_Add_ne m key key' delta :
  key ≠ key' → expvar_Get (expvar_Add m key delta) key' = expvar_Get m key'.
Proof. intros Hne. unfold expvar_Add, expvar_Get. by rewrite lookup_insert_ne. Qed.

(** ** Connect *)

Lemma Connect_spec conn w :
  Connect conn w =
    Some (tt,
          mkWorld
            (with_Stats
               (with_connections (application w)
                  (<[connection.SocketID conn := conn]> (connections (application w))))
               (expvar_Add (Stats (application w)) "TotalConnections" 1))
            (objects w)
            (logged w ++ [glog.Infof "adding a new Connection %s to Application %s"
                                     [connection.SocketID conn; Name (application w)]])
            (dispatched w)).
Proof. reflexivity. Qed.

(** C9: when the socket identifier of [conn] already has an entry in the
    connection registry, [Connect conn] replaces that entry by [conn], the
    registry keeps its size, and TotalConnections is still incremented by
    one (as an int64: exactly one more whenever the counter is below the
    largest int64). *)
Theorem Connect_duplicate_grows_counter_only :
  ∀ (w : World) (conn old : connection.Connection),
    connections (application w) !! connection.SocketID conn = Some old →
    ∃ w',
      Connect conn w = Some (tt, w')
      ∧ connections (application w')
        = <[connection.SocketID conn := conn]> (connections (application w))
      ∧ connections (application w') !! connection.SocketID conn = Some conn
      ∧ size (connections (application w')) = size (connections (application w))
      ∧ TotalConnections (application w')
        = wrap64 (TotalConnections (application w) + 1)
      ∧ (int64 (TotalConnections (application w) + 1) →
         TotalConnections (application w') = TotalConnections (application w) + 1)
      ∧ channels (application w') = channels (application w)
      ∧ objects w' = objects w.
Proof.
  intros w conn old Hold. rewrite Connect_spec. eexists. split; [reflexivity|].
  cbn. repeat split.
  - apply lookup_insert_eq.
  - apply map_size_insert_Some. eauto.
  - apply expvar_Get_Add_eq.
  - intros Hr. unfold TotalConnections. cbn.
    rewrite expvar_Get_Add_eq. by apply wrap64_id.
Qed.

Lemma Connect_duplicate_grows_counter_only_witness :
  connections (application world_with_sock1) !! connection.SocketID sock1' = Some sock1
  ∧ ∃ w', Connect sock1' world_with_sock1 = Some (tt, w')
          ∧ connections (application w') !! "sock-1" = Some sock1'
          ∧ size (connections (application w')) = 1%nat
          ∧ TotalConnections (application w') = 1.
Proof.
  split; [vm_compute; reflexivity|].
  destruct (Connect_duplicate_grows_counter_only world_with_sock1 sock1' sock1)
    as (w' & Hrun & _ & Hlook & Hsize & Hcnt & _).
  - vm_compute; reflexivity.
  - exists w'. repeat split; [exact Hrun | exact Hlook | | ].
    + rewrite Hsize. vm_compute; reflexivity.
    + rewrite Hcnt. vm_compute; reflexivity.
Defined.

(** ** Disconnect of an unknown socket *)

(** C4: for every state and every socket identifier without an entry in
    the connection registry, [Disconnect] returns (it has no error result
    and does not panic) and leaves the Application (both registries and
    all counters), every channel object with its roster, and the webhook
    triggers as they were; it only logs two lines. *)
Theorem Disconnect_unknown_socket_unchanged :
  ∀ (w : World) (socketID : string),
    connections (application w) !! socketID = None →
    ∃ w',
      Disconnect socketID w = Some (tt, w')
      ∧ application w' = application w
      ∧ objects w' = objects w
      ∧ dispatched w' = dispatched w
      ∧ logged w'
        = logged w ++ [glog.Infof "disconnecting socket %+v" [socketID];
                       glog.Infof "socket not found, %+v" ["connection not found"]].
Proof.
  intros w socketID Hnone.
  unfold Disconnect, bind, FindConnection, gets, log_Infof, modify. cbn.
  rewrite Hnone. cbn. eexists. split; [reflexivity|]. cbn.
  repeat split. by rewrite <- app_assoc.
Qed.

Lemma Disconnect_unknown_socket_unchanged_witness :
  connections (application world_with_sock1) !! "sock-9" = None
  ∧ ∃ w', Disconnect "sock-9" world_with_sock1 = Some (tt, w')
          ∧ application w' = application world_with_sock1
          ∧ objects w' = objects world_with_sock1.
Proof.
  split; [vm_compute; reflexivity|].
  destruct (Disconnect_unknown_socket_unchanged world_with_sock1 "sock-9")
    as (w' & Hrun & Happ & Hobj & _).
  - vm_compute; reflexivity.
  - exists w'. repeat split; assumption.
Defined.

(** ** Connection.Publish *)

(** C7: for every connection, message and transport implementing
    [Socket], [Publish] returns; when [WriteJSON] fails the error is
    logged, and only logged; the connection's fields are the same
    afterwards, whether the write failed or not, and the transport is as
    the write left it. *)
Theorem Publish_swallows_write_error :
  ∀ (Message Transport : Type) (impl : connection.SocketImpl Message Transport)
    (conn : connection.Connection) (m : Message) (t : Transport),
    connection.receiver (connection.Publish conn m t) = conn
    ∧ connection.transport (connection.Publish conn m t)
      = (connection.WriteJSON (connection.Sock conn) m t).2
    ∧ connection.logged (connection.Publish conn m t)
      = match (connection.WriteJSON (connection.Sock conn) m t).1 with
        | Some err => [glog.Errorf "error writing json into Socket, %+v" [err]]
        | None => []
        end.
Proof.
  intros Message Transport impl conn m t. unfold connection.Publish.
  destruct (connection.WriteJSON (connection.Sock conn) m t) as [[err|] t']; cbn; auto.
Qed.

Example Publish_on_broken_socket :
  @connection.Publish _ _ connection.BrokenSocket sock1 "hello" tt
  = connection.mkPublished sock1 tt
      [glog.Errorf "error writing json into Socket, %+v" ["broken pipe"]].
Proof. reflexivity. Qed.

Example Publish_on_recording_socket :
  @connection.Publish _ _ connection.RecordingSocket sock1 "hello" []
  = connection.mkPublished sock1 [(1%nat, "hello")] [].
Proof. reflexivity. Qed.

(** ** AddChannel and RemoveChannel *)

Lemma RemoveChannel_spec c ch w :
  objects w !! c = Some ch →
  RemoveChannel c w =
    Some (tt,
          mkWorld
            (with_Stats
               (with_channels (application w)
                  (delete (channel.ID ch) (channels (application w))))
               (adjust_counters (-1) (channel.kind ch) (Stats (application w))))
            (objects w)
            (logged w ++ [glog.Infof "remove the Channel %s from Application %s"
                                     [channel.ID ch; Name (application w)]])
            (dispatched w)).
Proof.
  intros Hc. unfold RemoveChannel, adjust_counters.
  unfold channel.IsPresence, channel.IsPrivate, channel.IsPublic.
  destruct (channel.kind ch) eqn:Hk; repeat (run_method; rewrite ?Hc, ?Hk); reflexivity.
Qed.

Lemma AddChannel_spec c ch w :
  objects w !! c = Some ch →
  AddChannel c w =
    Some (tt,
          mkWorld
            (with_Stats
               (with_channels (application w)
                  (<[channel.ID ch := c]> (channels (application w))))
               (adjust_counters 1 (channel.kind ch) (Stats (application w))))
            (objects w)
            (logged w ++ [glog.Infof "adding a new Channel %s to Application %s"
                                     [channel.ID ch; Name (application w)]])
            (dispatched w)).
Proof.
  intros Hc. unfold AddChannel, adjust_counters.
  unfold channel.IsPresence, channel.IsPrivate, channel.IsPublic.
  destruct (channel.kind ch) eqn:Hk; repeat (run_method; rewrite ?Hc, ?Hk); reflexivity.
Qed.

Lemma kind_counter_not_total k : kind_counter k ≠ "TotalChannels".
Proof. destruct k; discriminate. Qed.

Lemma adjust_counters_total delta k stats :
  expvar_Get (adjust_counters delta k stats) "TotalChannels"
  = wrap64 (expvar_Get stats "TotalChannels" + delta).
Proof.
  unfold adjust_counters. rewrite expvar_Get_Add_eq.
  rewrite expvar_Get_Add_ne by apply kind_counter_not_total. reflexivity.
Qed.

Lemma adjust_counters_kind delta k stats :
  expvar_Get (adjust_counters delta k stats) (kind_counter k)
  = wrap64 (expvar_Get stats (kind_counter k) + delta).
Proof.
  unfold adjust_counters.
  rewrite expvar_Get_Add_ne by (apply not_eq_sym, kind_counter_not_total).
  apply expvar_Get_Add_eq.
Qed.

Lemma adjust_counters_other delta k stats key :
  key ≠ kind_counter k → key ≠ "TotalChannels" →
  expvar_Get (adjust_counters delta k stats) key = expvar_Get stats key.
Proof.
  intros H1 H2. unfold adjust_counters.
  rewrite !expvar_Get_Add_ne by congruence. reflexivity.
Qed.

Lemma run_nil w : run [] w = Some (tt, w).
Proof. reflexivity. Qed.

Lemma run_cons o ops w :
  run (o :: ops) w = match exec o w with
                     | Some (_, w') => run ops w'
                     | None => None
                     end.
Proof. unfold run. cbn. unfold bind. destruct (exec o w) as [[[] w']|]; reflexivity. Qed.

Lemma run_app ops1 ops2 w :
  run (ops1 ++ ops2) w = match run ops1 w with
                         | Some (_, w') => run ops2 w'
                         | None => None
                         end.
Proof.
  revert w. induction ops1 as [|o ops1 IH]; intros w; [reflexivity|].
  cbn [app]. rewrite !run_cons. destruct (exec o w) as [[[] w']|]; [apply IH | reflexivity].
Qed.

(** [n + 1] calls of [RemoveChannel] on the same channel object: the
    registry loses the entry of its identifier, if there is one, and the
    two counters go down by [n + 1]. *)
Lemma RemoveChannel_repeated c ch (n : nat) w :
  objects w !! c = Some ch →
  ∃ wn,
    run (replicate (S n) (OpRemoveChannel c)) w = Some (tt, wn)
    ∧ TotalChannels (application wn)
      = wrap64 (TotalChannels (application w) - Z.of_nat (S n))
    ∧ expvar_Get (Stats (application wn)) (kind_counter (channel.kind ch))
      = wrap64 (expvar_Get (Stats (application w)) (kind_counter (channel.kind ch))
                - Z.of_nat (S n))
    ∧ channels (application wn) = delete (channel.ID ch) (channels (application w))
    ∧ objects wn = objects w.
Proof.
  revert w. induction n as [|n IH]; intros w Hc.
  - cbn [replicate]. rewrite run_cons. cbn [exec].
    rewrite (RemoveChannel_spec c ch w Hc), run_nil.
    eexists. split; [reflexivity|]. cbn. unfold TotalChannels. cbn.
    rewrite adjust_counters_total, adjust_counters_kind. auto.
  - change (replicate (S (S n)) (OpRemoveChannel c))
      with (OpRemoveChannel c :: replicate (S n) (OpRemoveChannel c)).
    rewrite run_cons. cbn [exec]. rewrite (RemoveChannel_spec c ch w Hc).
    match goal with |- context [run _ ?w1] => destruct (IH w1) as (wn & Hrun & HT & HK & Hch & Hobj) end;
      [exact Hc|].
    exists wn. split; [exact Hrun|].
    rewrite HT, HK, Hch, Hobj. unfold TotalChannels. cbn.
    rewrite adjust_counters_total, adjust_counters_kind, !wrap64_sub_l.
    repeat split.
    + f_equal. lia.
    + f_equal. lia.
    + apply delete_delete_eq.
Qed.

(** C10: for a channel object [c] that no entry of the channel registry
    holds, [RemoveChannel c] still takes one off TotalChannels and off the
    counter of [c]'s kind (as int64), and leaves the registry without an
    entry for [c]'s identifier (the registry itself when the identifier
    had none). Repeated, the calls keep decrementing: after [n + 1] calls
    the counters are down by [n + 1] while the registry lost at most one
    entry, so counters that matched the registry are below the number of
    registered channels from the second call on (from the first when the
    identifier had no entry), and below zero once [n + 1] exceeds it. *)
Theorem RemoveChannel_unregistered_still_decrements :
  ∀ (w : World) (c : channel.ptr) (ch : channel.Channel),
    objects w !! c = Some ch →
    (∀ k, channels (application w) !! k ≠ Some c) →
    (∃ w',
        RemoveChannel c w = Some (tt, w')
        ∧ TotalChannels (application w') = wrap64 (TotalChannels (application w) - 1)
        ∧ expvar_Get (Stats (application w')) (kind_counter (channel.kind ch))
          = wrap64 (expvar_Get (Stats (application w)) (kind_counter (channel.kind ch)) - 1)
        ∧ channels (application w') = delete (channel.ID ch) (channels (application w))
        ∧ (channels (application w) !! channel.ID ch = None →
           channels (application w') = channels (application w)))
    ∧ ∀ n : nat,
        ∃ wn,
          run (replicate (S n) (OpRemoveChannel c)) w = Some (tt, wn)
          ∧ TotalChannels (application wn)
            = wrap64 (TotalChannels (application w) - Z.of_nat (S n))
          ∧ expvar_Get (Stats (application wn)) (kind_counter (channel.kind ch))
            = wrap64 (expvar_Get (Stats (application w)) (kind_counter (channel.kind ch))
                      - Z.of_nat (S n))
          ∧ (size (channels (application w)) ≤ S (size (channels (application wn))))%nat
          ∧ (∀ k, channels (application wn) !! k ≠ Some c)
          ∧ (TotalChannels (application w) = Z.of_nat (size (channels (application w))) →
             int64 (TotalChannels (application w) - Z.of_nat (S n)) →
             (1 ≤ n)%nat ∨ channels (application w) !! channel.ID ch = None →
             TotalChannels (application wn) < Z.of_nat (size (channels (application wn)))
             ∧ (Z.of_nat (size (channels (application w))) < Z.of_nat (S n) →
                TotalChannels (application wn) < 0)).
Proof.
  intros w c ch Hc Hnot. split.
  - rewrite (RemoveChannel_spec c ch w Hc). eexists. split; [reflexivity|].
    unfold TotalChannels. cbn.
    rewrite adjust_counters_total, adjust_counters_kind.
    repeat split. intros Hnone. by apply delete_id.
  - intros n.
    destruct (RemoveChannel_repeated c ch n w Hc) as (wn & Hrun & HT & HK & Hch & Hobj).
    exists wn. split; [exact Hrun|]. split; [exact HT|]. split; [exact HK|].
    assert (Hsz : (size (channels (application w)) ≤ S (size (channels (application wn))))%nat).
    { rewrite Hch. destruct (channels (application w) !! channel.ID ch) as [c'|] eqn:Hl.
      - rewrite map_size_delete, Hl. lia.
      - rewrite delete_id by exact Hl. lia. }
    split; [exact Hsz|]. split.
    { intros k Hk. rewrite Hch in Hk. apply lookup_delete_Some in Hk as [_ Hk].
      by apply (Hnot k). }
    intros Hcount Hrange Hcase.
    rewrite HT, (wrap64_id _ Hrange). split.
    + destruct Hcase as [Hn|Hnone].
      * lia.
      * rewrite Hch, delete_id by exact Hnone. lia.
    + lia.
Qed.

Lemma RemoveChannel_unregistered_still_decrements_witness :
  objects world_with_stray_channel !! 0%nat = Some (channel.New "presence-lobby" [])
  ∧ (∀ k, channels (application world_with_stray_channel) !! k ≠ Some 0%nat)
  ∧ ∃ wn,
      run (replicate 3 (OpRemoveChannel 0%nat)) world_with_stray_channel = Some (tt, wn)
      ∧ TotalChannels (application wn) = -3
      ∧ TotalPresenceChannels (application wn) = -3
      ∧ size (channels (application wn)) = 0%nat.
Proof.
  assert (H1 : objects world_with_stray_channel !! 0%nat
               = Some (channel.New "presence-lobby" [])) by (vm_compute; reflexivity).
  assert (H2 : ∀ k, channels (application world_with_stray_channel) !! k ≠ Some 0%nat)
    by (intros k; cbn; rewrite lookup_empty; discriminate).
  split; [exact H1|]. split; [exact H2|].
  destruct (RemoveChannel_unregistered_still_decrements _ _ _ H1 H2) as [_ Hn].
  destruct (Hn 2%nat) as (wn & Hrun & HT & HK & _).
  exists wn. split; [exact Hrun|]. split; [|split].
  - rewrite HT. vm_compute; reflexivity.
  - unfold TotalPresenceChannels. etransitivity; [exact HK|]. vm_compute; reflexivity.
  - revert Hrun. vm_compute. intros [= <-]. reflexivity.
Defined.

(** ** Methods of a channel object called through its pointer *)

Lemma call_spec k w :
  call k w = Some (tt, mkWorld (application w) (objects w) (logged w)
                               (dispatched w ++ [webhook_of k])).
Proof.
  unfold call, webhook_of.
  destruct (channel.callee k); try reflexivity.
  by destruct (channel.on_event k) as [[event data]|].
Qed.

Lemma for_range_call ks w :
  for_range ks call w
  = Some (tt, mkWorld (application w) (objects w) (logged w)
                      (dispatched w ++ map webhook_of ks)).
Proof.
  revert w. induction ks as [|k ks IH]; intros w.
  - cbn. unfold ret. rewrite app_nil_r. by destruct w.
  - cbn [for_range]. unfold bind. rewrite call_spec, IH. cbn.
    by rewrite <- app_assoc.
Qed.

Lemma invoke_spec c ch method w :
  objects w !! c = Some ch →
  invoke c method w
  = Some (channel.err (method c ch),
          mkWorld (application w)
                  (<[c := channel.after (method c ch)]> (objects w))
                  (logged w)
                  (dispatched w ++ map webhook_of (channel.calls (method c ch)))).
Proof.
  intros Hc. unfold invoke, bind, deref. rewrite Hc.
  unfold store, modify. rewrite for_range_call. reflexivity.
Qed.

Lemma c_IsOccupied_spec c ch w :
  objects w !! c = Some ch → c_IsOccupied c w = Some (channel.IsOccupied ch, w).
Proof. intros Hc. unfold c_IsOccupied, bind, deref. by rewrite Hc. Qed.

Lemma c_IsSubscribed_spec c ch conn w :
  objects w !! c = Some ch → c_IsSubscribed c conn w = Some (channel.IsSubscribed ch conn, w).
Proof. intros Hc. unfold c_IsSubscribed, bind, deref. by rewrite Hc. Qed.

(** A failed [Channel.Unsubscribe] changes nothing and calls no listener. *)
Lemma channel_Unsubscribe_failed self ch conn e :
  channel.err (channel.Unsubscribe self ch conn) = Some e →
  channel.after (channel.Unsubscribe self ch conn) = ch
  ∧ channel.calls (channel.Unsubscribe self ch conn) = [].
Proof.
  unfold channel.Unsubscribe.
  destruct (channel.Subscriptions ch !! connection.SocketID conn); cbn; [discriminate|auto].
Qed.

Lemma channel_Unsubscribe_ID self ch conn :
  channel.ID (channel.after (channel.Unsubscribe self ch conn)) = channel.ID ch.
Proof.
  unfold channel.Unsubscribe.
  destruct (channel.Subscriptions ch !! connection.SocketID conn); reflexivity.
Qed.

(** ** Application.Unsubscribe *)

(** C5: [Application.Unsubscribe c conn] first calls [c.Unsubscribe(conn)].
    If that call fails, its error is the result and the Application
    (registry and counters) is as before. If it succeeds, the result is
    nil, and the channel is taken out of the registry, by [RemoveChannel],
    exactly when the channel object is unoccupied after the call: an
    occupied channel leaves the Application as it was. *)
Theorem Unsubscribe_removes_channel_iff_vacated :
  ∀ (w : World) (c : channel.ptr) (conn : connection.Connection) (ch : channel.Channel),
    objects w !! c = Some ch →
    ∃ r w1,
      c_Unsubscribe c conn w = Some (r, w1)
      ∧ application w1 = application w
      ∧ match r with
        | Some e => Unsubscribe c conn w = Some (Some e, w1) ∧ objects w1 = objects w
        | None =>
            ∃ ch1,
              objects w1 !! c = Some ch1
              ∧ if channel.IsOccupied ch1
                then Unsubscribe c conn w = Some (None, w1)
                else ∃ w2,
                    Unsubscribe c conn w = Some (None, w2)
                    ∧ RemoveChannel c w1 = Some (tt, w2)
                    ∧ channels (application w2)
                      = delete (channel.ID ch) (channels (application w))
                    ∧ channels (application w2) !! channel.ID ch = None
                    ∧ TotalChannels (application w2)
                      = wrap64 (TotalChannels (application w) - 1)
                    ∧ expvar_Get (Stats (application w2)) (kind_counter (channel.kind ch))
                      = wrap64 (expvar_Get (Stats (application w))
                                           (kind_counter (channel.kind ch)) - 1)
        end.
Proof.
  intros w c conn ch Hc.
  unfold Unsubscribe, c_Unsubscribe, bind.
  rewrite (invoke_spec c ch _ w Hc).
  set (o := channel.Unsubscribe c ch conn).
  eexists _, _. split; [reflexivity|]. split; [reflexivity|].
  destruct (channel.err o) as [e|] eqn:He.
  - split; [reflexivity|]. cbn.
    destruct (channel_Unsubscribe_failed c ch conn e He) as [Hafter _].
    fold o in Hafter. rewrite Hafter. by apply insert_id.
  - exists (channel.after o). cbn. split; [apply lookup_insert_eq|].
    erewrite c_IsOccupied_spec by (cbn; apply lookup_insert_eq).
    destruct (channel.IsOccupied (channel.after o)) eqn:Hocc; cbn; [reflexivity|].
    erewrite RemoveChannel_spec by (cbn; apply lookup_insert_eq).
    eexists. split; [reflexivity|]. split; [reflexivity|]. cbn.
    unfold TotalChannels, channel.kind. subst o. cbn.
    rewrite channel_Unsubscribe_ID.
    rewrite adjust_counters_total.
    pose proof (adjust_counters_kind (-1) (channel.kind_of_id (channel.ID ch))
                  (Stats (application w))) as HK.
    repeat split; [apply lookup_delete_eq | exact HK].
Qed.

Example subscribed_scenario_runs :
  ∃ ch,
    subscribed_scenario (fresh_world demo_app ∅) = Some (0%nat, world_subscribed)
    ∧ channels (application world_subscribed) !! "presence-room" = Some 0%nat
    ∧ objects world_subscribed !! 0%nat = Some ch
    ∧ channel.ID ch = "presence-room"
    ∧ channel.IsSubscribed ch sock1 = true
    ∧ channel.IsOccupied ch = true
    ∧ dispatched world_subscribed
      = [mkWebhook channel_occupied 0%nat None;
         mkWebhook member_added 0%nat
                   (Some (channel.mkSubscription sock1 0%nat "{user_id:u1}"))]
    ∧ TotalChannels (application world_subscribed) = 1
    ∧ TotalConnections (application world_subscribed) = 1.
Proof. eexists. by_evaluation. Qed.

Lemma Unsubscribe_removes_channel_iff_vacated_witness :
  objects world_subscribed !! 0%nat = Some presence_room_with_sock1
  ∧ ∃ w2,
      Unsubscribe 0%nat sock1 world_subscribed = Some (None, w2)
      ∧ channels (application w2) !! "presence-room" = None
      ∧ TotalChannels (application w2) = 0.
Proof.
  split; [vm_compute; reflexivity|].
  destruct (Unsubscribe_removes_channel_iff_vacated
              world_subscribed 0%nat sock1 presence_room_with_sock1)
    as (r & w1 & Hcall & _ & Hcases).
  - vm_compute; reflexivity.
  - vm_compute in Hcall. injection Hcall as <- <-.
    destruct Hcases as (ch1 & Hch1 & Hocc).
    vm_compute in Hch1. injection Hch1 as <-.
    cbv beta iota delta [channel.IsOccupied] in Hocc.
    vm_compute (negb _) in Hocc.
    destruct Hocc as (w2 & Hrun & _ & _ & Hgone & HT & _).
    exists w2. split; [exact Hrun|]. split; [exact Hgone|].
    rewrite HT. vm_compute; reflexivity.
Defined.

(** [Application.Unsubscribe] in closed form. *)
Lemma Unsubscribe_spec c ch conn w :
  objects w !! c = Some ch →
  Unsubscribe c conn w
  = let o := channel.Unsubscribe c ch conn in
    let w1 := mkWorld (application w) (<[c := channel.after o]> (objects w)) (logged w)
                      (dispatched w ++ map webhook_of (channel.calls o)) in
    match channel.err o with
    | Some e => Some (Some e, w1)
    | None =>
        if channel.IsOccupied (channel.after o) then Some (None, w1)
        else match RemoveChannel c w1 with
             | Some (_, w2) => Some (None, w2)
             | None => None
             end
    end.
Proof.
  intros Hc. unfold Unsubscribe, c_Unsubscribe, bind.
  rewrite (invoke_spec c ch _ w Hc). cbn zeta.
  destruct (channel.err (channel.Unsubscribe c ch conn)); [reflexivity|].
  erewrite c_IsOccupied_spec by (cbn; apply lookup_insert_eq).
  destruct (channel.IsOccupied _); cbn; [reflexivity|].
  destruct (RemoveChannel c _) as [[[] w2]|]; reflexivity.
Qed.

(** ** RemoveChannel and occupancy *)

(** C3, as the code has it: RemoveChannel makes no occupancy check. It
    deletes the registry entry of [c]'s identifier whatever the roster of
    [c], occupied or not, and does not touch the channel objects. The
    only occupancy check is the one [Application.Unsubscribe] makes before
    it calls RemoveChannel: whenever the channel object is occupied after
    [Application.Unsubscribe], the Application is as it was before. *)
Theorem RemoveChannel_makes_no_occupancy_check :
  ∀ (w : World) (c : channel.ptr) (ch : channel.Channel),
    objects w !! c = Some ch →
    (∃ w',
        RemoveChannel c w = Some (tt, w')
        ∧ channels (application w') = delete (channel.ID ch) (channels (application w))
        ∧ channels (application w') !! channel.ID ch = None
        ∧ objects w' = objects w)
    ∧ ∀ conn r w' ch',
        Unsubscribe c conn w = Some (r, w') →
        objects w' !! c = Some ch' →
        channel.IsOccupied ch' = true →
        application w' = application w.
Proof.
  intros w c ch Hc. split.
  - rewrite (RemoveChannel_spec c ch w Hc). eexists. split; [reflexivity|].
    cbn. repeat split. apply lookup_delete_eq.
  - intros conn r w' ch'. rewrite (Unsubscribe_spec c ch conn w Hc). cbn zeta.
    destruct (channel.err _) as [e|].
    { intros [= <- <-]. reflexivity. }
    destruct (channel.IsOccupied (channel.after _)) eqn:Hocc.
    { intros [= <- <-]. reflexivity. }
    erewrite RemoveChannel_spec by (cbn; apply lookup_insert_eq).
    intros [= <- <-]. cbn. rewrite lookup_insert_eq. intros [= <-].
    rewrite Hocc. discriminate.
Qed.

Lemma RemoveChannel_makes_no_occupancy_check_witness :
  objects world_subscribed !! 0%nat = Some presence_room_with_sock1
  ∧ channel.IsOccupied presence_room_with_sock1 = true
  ∧ ∃ w',
      RemoveChannel 0%nat world_subscribed = Some (tt, w')
      ∧ channels (application w') !! "presence-room" = None
      ∧ objects w' = objects world_subscribed.
Proof.
  split; [vm_compute; reflexivity|]. split; [vm_compute; reflexivity|].
  destruct (RemoveChannel_makes_no_occupancy_check
              world_subscribed 0%nat presence_room_with_sock1)
    as [(w' & Hrun & _ & Hgone & Hobj) _].
  - vm_compute; reflexivity.
  - exists w'. split; [exact Hrun|]. split; [exact Hgone | exact Hobj].
Defined.

(** C3, as stated, fails: in the state where ["sock-1"] is subscribed to
    the registered channel ["presence-room"], RemoveChannel deletes that
    channel from the registry although its roster is not empty. *)
Lemma RemoveChannel_deletes_occupied_channel :
  FindChannelByChannelID "presence-room" world_subscribed
  = Some (Ok 0%nat, world_subscribed)
  ∧ c_IsOccupied 0%nat world_subscribed = Some (true, world_subscribed)
  ∧ ∃ w',
      RemoveChannel 0%nat world_subscribed = Some (tt, w')
      ∧ c_IsOccupied 0%nat w' = Some (true, w')
      ∧ FindChannelByChannelID "presence-room" w'
        = Some (Fail "channel does not exists", w').
Proof.
  split; [vm_compute; reflexivity|]. split; [vm_compute; reflexivity|].
  eexists. by_evaluation.
Qed.

(** ** FindOrCreateChannelByChannelID *)

Lemma FindChannelByChannelID_spec n w :
  FindChannelByChannelID n w
  = Some (match channels (application w) !! n with
          | Some c => Ok c
          | None => Fail "channel does not exists"
          end, w).
Proof.
  unfold FindChannelByChannelID, bind, gets.
  destruct (channels (application w) !! n); reflexivity.
Qed.

Lemma alloc_spec ch w :
  alloc ch w
  = Some (fresh (dom (objects w)),
          mkWorld (application w) (<[fresh (dom (objects w)) := ch]> (objects w))
                  (logged w) (dispatched w)).
Proof. reflexivity. Qed.

Lemma fresh_object_unused (w : World) : objects w !! fresh (dom (objects w)) = None.
Proof. apply not_elem_of_dom, is_fresh. Qed.

(** C6: if the registry has a channel under [n],
    [FindOrCreateChannelByChannelID n] returns that very pointer and
    changes nothing. Otherwise it makes a new channel object, at an
    address that had none, with identifier [n], no subscriber and the five
    listeners Occupied, Vacated, MemberAdded, MemberRemoved and ClientEvent
    set to the closures over the Application's five hooks; it registers
    the object under [n] (with the counters of [AddChannel]) and returns
    its pointer, so that [FindChannelByChannelID n] then finds it. *)
Theorem FindOrCreateChannelByChannelID_finds_or_creates :
  ∀ (w : World) (n : string),
    match channels (application w) !! n with
    | Some c => FindOrCreateChannelByChannelID n w = Some (c, w)
    | None =>
        ∃ c w',
          FindOrCreateChannelByChannelID n w = Some (c, w')
          ∧ objects w !! c = None
          ∧ objects w' = <[c := wired_channel n]> (objects w)
          ∧ objects w' !! c = Some (wired_channel n)
          ∧ channels (application w') = <[n := c]> (channels (application w))
          ∧ connections (application w') = connections (application w)
          ∧ TotalChannels (application w') = wrap64 (TotalChannels (application w) + 1)
          ∧ expvar_Get (Stats (application w')) (kind_counter (channel.kind_of_id n))
            = wrap64 (expvar_Get (Stats (application w))
                                 (kind_counter (channel.kind_of_id n)) + 1)
          ∧ FindChannelByChannelID n w' = Some (Ok c, w')
    end.
Proof.
  intros w n.
  pose proof (FindChannelByChannelID_spec n w) as Hfind.
  unfold FindOrCreateChannelByChannelID, bind.
  destruct (channels (application w) !! n) as [c|] eqn:Hn; rewrite Hfind; [reflexivity|].
  unfold channel_New. rewrite alloc_spec.
  change (channel.New n _) with (wired_channel n).
  erewrite AddChannel_spec by (cbn; apply lookup_insert_eq).
  eexists _, _. split; [reflexivity|]. cbn.
  split; [apply fresh_object_unused|]. split; [reflexivity|].
  split; [apply lookup_insert_eq|]. split; [reflexivity|]. split; [reflexivity|].
  unfold TotalChannels. cbn. rewrite adjust_counters_total.
  split; [reflexivity|]. split; [apply adjust_counters_kind|].
  by rewrite lookup_insert_eq.
Qed.

Example FindOrCreateChannelByChannelID_twice :
  ∃ w1 w2,
    FindOrCreateChannelByChannelID "private-chat" (fresh_world demo_app ∅) = Some (0%nat, w1)
    ∧ FindOrCreateChannelByChannelID "private-chat" w1 = Some (0%nat, w1)
    ∧ FindOrCreateChannelByChannelID "lobby" w1 = Some (1%nat, w2)
    ∧ TotalChannels (application w2) = 2
    ∧ TotalPrivateChannels (application w2) = 1
    ∧ TotalPublicChannels (application w2) = 1
    ∧ TotalPresenceChannels (application w2) = 0.
Proof. eexists _, _. by_evaluation. Qed.

(** ** The filter queries *)

Lemma collect_spec keep (b : channel.ptr → bool) entries acc w :
  (∀ e, e ∈ entries → keep e.2 w = Some (b e.2, w)) →
  collect keep entries acc w
  = Some (acc ++ (filter (λ e, b e.2 = true) entries).*2, w).
Proof.
  revert acc. induction entries as [|[k c] rest IH]; intros acc Hkeep.
  - cbn. unfold ret. by rewrite app_nil_r.
  - cbn [collect]. unfold bind.
    pose proof (Hkeep (k, c) ltac:(apply list_elem_of_here)) as Hk.
    cbn [snd] in Hk. rewrite Hk.
    rewrite IH by (intros e He; apply Hkeep; by apply list_elem_of_further).
    rewrite filter_cons. cbn [snd].
    destruct (b c) eqn:Hb.
    + rewrite decide_True by reflexivity. cbn. by rewrite <- app_assoc.
    + rewrite decide_False by discriminate. reflexivity.
Qed.

Lemma filter_all {A} (P : A → Prop) `{∀ x, Decision (P x)} (l : list A) :
  (∀ x, P x) → filter P l = l.
Proof.
  intros HP. induction l as [|x l IH]; [reflexivity|].
  rewrite filter_cons_True by apply HP. by rewrite IH.
Qed.

(** Whatever the order in which [range] visits the entries of the
    registry, the pointers it keeps list the registry. *)
Lemma lists_registered_any_order w keep (b : channel.ptr → bool) entries :
  entries ≡ₚ map_to_list (channels (application w)) →
  (∀ k c, channels (application w) !! k = Some c →
          ∃ ch, objects w !! c = Some ch ∧ b c = keep ch) →
  lists_registered w keep (filter (λ e, b e.2 = true) entries).*2.
Proof.
  intros Hperm Hb.
  set (m := channels (application w)) in *.
  set (P := λ e : string * channel.ptr, b e.2 = true).
  assert (Hkeys : NoDup entries.*1).
  { rewrite Hperm. apply NoDup_fst_map_to_list. }
  assert (Hentries : ∀ k c, (k, c) ∈ entries ↔ m !! k = Some c).
  { intros k c. rewrite Hperm. apply elem_of_map_to_list. }
  exists (filter P entries).*1. split; [|split].
  - apply (sublist_NoDup _ entries.*1); [exact Hkeys|].
    apply fmap_sublist, sublist_filter.
  - intros k. rewrite list_elem_of_fmap. split.
    + intros ([k' c] & -> & Hin). apply list_elem_of_filter in Hin as [HP Hin].
      apply Hentries in Hin. cbn.
      destruct (Hb k' c Hin) as (ch & Hch & Hbk).
      exists c, ch. repeat split; [exact Hin | exact Hch |].
      rewrite <- Hbk. exact HP.
    + intros (c & ch & Hk & Hch & Hkeep).
      exists (k, c). split; [reflexivity|].
      apply list_elem_of_filter. split.
      * unfold P. cbn. destruct (Hb k c Hk) as (ch' & Hch' & Hbk).
        rewrite Hbk. congruence.
      * by apply Hentries.
  - assert (Hall : ∀ e, e ∈ filter P entries → m !! e.1 = Some e.2).
    { intros [k c] Hin. apply list_elem_of_filter in Hin as [_ Hin].
      by apply Hentries in Hin. }
    induction (filter P entries) as [|[k c] l IH]; [constructor|].
    cbn. constructor.
    + apply (Hall (k, c)), list_elem_of_here.
    + apply IH. intros e He. apply Hall. by apply list_elem_of_further.
Qed.

Lemma lists_registered_filter w keep (b : channel.ptr → bool) :
  (∀ k c, channels (application w) !! k = Some c →
          ∃ ch, objects w !! c = Some ch ∧ b c = keep ch) →
  lists_registered w keep
    (filter (λ e, b e.2 = true) (map_to_list (channels (application w)))).*2.
Proof. by apply lists_registered_any_order. Qed.

(** Every pointer in a list the registry is listed by is registered, and
    every registered channel that passes is in the list. *)
Lemma lists_registered_elem w keep l c :
  lists_registered w keep l →
  c ∈ l → ∃ k, channels (application w) !! k = Some c.
Proof.
  intros (ks & _ & _ & Hf) Hc.
  apply list_elem_of_lookup in Hc as [i Hi].
  destruct (Forall2_lookup_r _ _ _ _ _ Hf Hi) as (k & _ & Hk). eauto.
Qed.

(** With no pointer registered under two keys, as [AddChannel] under the
    object's own identifier keeps it, no pointer is listed twice. *)
Lemma lists_registered_NoDup w keep l :
  (∀ k1 k2 c, channels (application w) !! k1 = Some c →
              channels (application w) !! k2 = Some c → k1 = k2) →
  lists_registered w keep l → NoDup l.
Proof.
  intros Hinj (ks & Hnd & _ & Hf).
  induction Hf as [|k c ks l Hk Hf IH]; [constructor|].
  apply NoDup_cons in Hnd as [Hnotin Hnd]. constructor; [|by apply IH].
  intros Hc. apply list_elem_of_lookup in Hc as [i Hi].
  destruct (Forall2_lookup_r _ _ _ _ _ Hf Hi) as (k' & Hk'i & Hk').
  assert (k = k') as -> by (eapply Hinj; eauto).
  apply Hnotin. apply list_elem_of_lookup. eauto.
Qed.

(** C8: in every state whose registered pointers have their objects, the
    four queries return and leave the state as it is; [Channels] lists
    every entry of the registry, [PresenceChannels], [PrivateChannels] and
    [PublicChannels] exactly the entries whose channel is of that kind,
    each entry once. *)
Theorem filter_queries_list_registry_by_kind :
  ∀ w : World,
    (∀ k c, channels (application w) !! k = Some c → is_Some (objects w !! c)) →
    ∃ all presence private public,
      Channels w = Some (all, w)
      ∧ lists_registered w (λ _, true) all
      ∧ length all = size (channels (application w))
      ∧ PresenceChannels w = Some (presence, w)
      ∧ lists_registered w channel.IsPresence presence
      ∧ PrivateChannels w = Some (private, w)
      ∧ lists_registered w channel.IsPrivate private
      ∧ PublicChannels w = Some (public, w)
      ∧ lists_registered w channel.IsPublic public.
Proof.
  intros w Hvalid.
  set (m := channels (application w)).
  set (by_object := λ (keep : channel.Channel → bool) (c : channel.ptr),
         match objects w !! c with Some ch => keep ch | None => false end).
  assert (Hderef : ∀ keep e, e ∈ map_to_list m →
            (let! ch := deref e.2 in ret (keep ch)) w = Some (by_object keep e.2, w)).
  { intros keep [k c] Hin. apply elem_of_map_to_list in Hin.
    destruct (Hvalid k c Hin) as [ch Hch].
    unfold bind, deref, by_object. cbn. by rewrite Hch. }
  assert (Hlists : ∀ keep, lists_registered w keep
            (filter (λ e, by_object keep e.2 = true) (map_to_list m)).*2).
  { intros keep. apply lists_registered_filter. intros k c Hk.
    destruct (Hvalid k c Hk) as [ch Hch]. exists ch. split; [exact Hch|].
    unfold by_object. by rewrite Hch. }
  eexists _, _, _, _.
  split; [|split; [|split; [|split; [|split; [|split; [|split; [|split]]]]]]].
  - unfold Channels, bind, gets.
    apply (collect_spec _ (λ _, true)). reflexivity.
  - cbn [app]. apply (lists_registered_filter w (λ _, true) (λ _, true)).
    intros k c Hk. destruct (Hvalid k c Hk) as [ch Hch]. eauto.
  - cbn [app]. rewrite length_fmap.
    rewrite filter_all by reflexivity. apply length_map_to_list.
  - unfold PresenceChannels, bind, gets.
    apply (collect_spec c_IsPresence (by_object channel.IsPresence)).
    intros e He. apply (Hderef channel.IsPresence e He).
  - apply Hlists.
  - unfold PrivateChannels, bind, gets.
    apply (collect_spec c_IsPrivate (by_object channel.IsPrivate)).
    intros e He. apply (Hderef channel.IsPrivate e He).
  - apply Hlists.
  - unfold PublicChannels, bind, gets.
    apply (collect_spec c_IsPublic (by_object channel.IsPublic)).
    intros e He. apply (Hderef channel.IsPublic e He).
  - apply Hlists.
Qed.

Example filter_queries_on_four_channels :
  four_channels_scenario (fresh_world demo_app ∅) = Some (tt, world_four_channels)
  ∧ FindChannelByChannelID "presence-room" world_four_channels
    = Some (Ok 0%nat, world_four_channels)
  ∧ FindChannelByChannelID "private-chat" world_four_channels
    = Some (Ok 1%nat, world_four_channels)
  ∧ FindChannelByChannelID "lobby" world_four_channels
    = Some (Ok 2%nat, world_four_channels)
  ∧ FindChannelByChannelID "news" world_four_channels
    = Some (Ok 3%nat, world_four_channels)
  ∧ PresenceChannels world_four_channels = Some ([0%nat], world_four_channels)
  ∧ PrivateChannels world_four_channels = Some ([1%nat], world_four_channels)
  ∧ (PublicChannels world_four_channels = Some ([2%nat; 3%nat], world_four_channels)
     ∨ PublicChannels world_four_channels = Some ([3%nat; 2%nat], world_four_channels)).
Proof.
  repeat (lazymatch goal with |- _ ∧ _ => split end; [vm_compute; reflexivity|]).
  vm_compute. auto.
Qed.

Lemma filter_queries_list_registry_by_kind_witness :
  (∀ k c, channels (application world_four_channels) !! k = Some c →
          is_Some (objects world_four_channels !! c))
  ∧ ∃ all presence private public,
      Channels world_four_channels = Some (all, world_four_channels)
      ∧ length all = 4%nat
      ∧ PresenceChannels world_four_channels = Some (presence, world_four_channels)
      ∧ presence = [0%nat]
      ∧ PrivateChannels world_four_channels = Some (private, world_four_channels)
      ∧ private = [1%nat]
      ∧ PublicChannels world_four_channels = Some (public, world_four_channels)
      ∧ length public = 2%nat.
Proof.
  assert (Hvalid : ∀ k c, channels (application world_four_channels) !! k = Some c →
                          is_Some (objects world_four_channels !! c)).
  { apply (bool_decide_unpack
             (map_Forall (λ (_ : string) c, is_Some (objects world_four_channels !! c))
                         (channels (application world_four_channels)))).
    vm_compute. exact I. }
  split; [exact Hvalid|].
  destruct (filter_queries_list_registry_by_kind world_four_channels Hvalid)
    as (all & presence & private & public
        & Hall & _ & Hlen & Hpres & _ & Hpriv & _ & Hpub & _).
  exists all, presence, private, public.
  split; [exact Hall|]. split; [rewrite Hlen; vm_compute; reflexivity|].
  split; [exact Hpres|]. split; [vm_compute in Hpres; congruence|].
  split; [exact Hpriv|]. split; [vm_compute in Hpriv; congruence|].
  split; [exact Hpub|]. vm_compute in Hpub. injection Hpub as <-. reflexivity.
Defined.

(** ** The counters and the registries *)

Lemma registered_of_kind_insert k id c m :
  m !! id = None →
  registered_of_kind k (<[id := c]> m)
  = if decide (channel.kind_of_id id = k) then S (registered_of_kind k m)
    else registered_of_kind k m.
Proof.
  intros Hid. unfold registered_of_kind.
  rewrite map_filter_insert. cbn [fst].
  destruct (decide (channel.kind_of_id id = k)) as [Hk|Hk].
  - apply map_size_insert_None. apply map_lookup_filter_None. left. exact Hid.
  - by rewrite delete_id.
Qed.

Lemma registered_of_kind_delete k id c m :
  m !! id = Some c →
  registered_of_kind k m
  = if decide (channel.kind_of_id id = k) then S (registered_of_kind k (delete id m))
    else registered_of_kind k (delete id m).
Proof.
  intros Hid.
  rewrite <- (insert_delete_id m id c Hid) at 1.
  apply registered_of_kind_insert, lookup_delete_eq.
Qed.

Lemma registered_of_kind_sum m :
  (registered_of_kind channel.Presence m + registered_of_kind channel.Private m
   + registered_of_kind channel.Public m)%nat = size m.
Proof.
  induction m as [|id c m Hid IH] using map_ind.
  - unfold registered_of_kind. rewrite !map_filter_empty, !map_size_empty. reflexivity.
  - rewrite !(registered_of_kind_insert _ id c m Hid), (map_size_insert_None _ _ _ Hid).
    rewrite <- IH.
    destruct (channel.kind_of_id id); repeat case_decide; try congruence; lia.
Qed.

Lemma kind_counter_inj k1 k2 : kind_counter k1 = kind_counter k2 → k1 = k2.
Proof. destruct k1, k2; (reflexivity || discriminate). Qed.

Lemma kind_counter_not_connections k : kind_counter k ≠ "TotalConnections".
Proof. destruct k; discriminate. Qed.

(** ** Disconnect *)

Lemma for_range_preserves {T} (P : World → Prop) (body : T → M unit) l w w' :
  (∀ x w1 w2, x ∈ l → body x w1 = Some (tt, w2) → P w1 → P w2) →
  P w → for_range l body w = Some (tt, w') → P w'.
Proof.
  revert w. induction l as [|x l IH]; intros w Hbody HP.
  - cbn. intros [= <-]. exact HP.
  - cbn [for_range]. unfold bind.
    destruct (body x w) as [[[] w1]|] eqn:Hx; [|discriminate].
    apply IH.
    + intros y w2 w3 Hy. apply Hbody. by apply list_elem_of_further.
    + eapply Hbody; [apply list_elem_of_here | exact Hx | exact HP].
Qed.

(** One turn of the loop of [Disconnect], on an entry whose pointer has
    its object. *)
Lemma Disconnect_unsubscribe_spec conn entry ch w :
  objects w !! entry.2 = Some ch →
  Disconnect_unsubscribe conn entry w
  = Some (tt,
          if channel.IsSubscribed ch conn then
            let o := channel.Unsubscribe entry.2 ch conn in
            mkWorld (application w)
                    (<[entry.2 := channel.after o]> (objects w))
                    (logged w ++ match channel.err o with
                                 | Some e =>
                                     [glog.Errorf
                                        "error while calling Channel.Unsubscribe, %+v" [e]]
                                 | None => []
                                 end)
                    (dispatched w ++ map webhook_of (channel.calls o))
          else w).
Proof.
  intros Hc. unfold Disconnect_unsubscribe, bind.
  rewrite (c_IsSubscribed_spec _ ch conn w Hc).
  destruct (channel.IsSubscribed ch conn); [|reflexivity].
  unfold c_Unsubscribe. rewrite (invoke_spec _ ch _ w Hc). cbn zeta.
  destruct (channel.err _); cbn; [reflexivity|].
  unfold ret. by rewrite app_nil_r.
Qed.

Lemma Disconnect_unsubscribe_application conn entry w w' :
  Disconnect_unsubscribe conn entry w = Some (tt, w') →
  application w' = application w.
Proof.
  destruct (objects w !! entry.2) as [ch|] eqn:Hc.
  - rewrite (Disconnect_unsubscribe_spec conn entry ch w Hc).
    intros [= <-]. by destruct (channel.IsSubscribed ch conn).
  - unfold Disconnect_unsubscribe, bind, c_IsSubscribed, bind, deref.
    rewrite Hc. discriminate.
Qed.

(** [Disconnect] and the Application: the loop leaves it alone, and the
    end of the method deletes the entry of the connection's own socket
    identifier and takes one off TotalConnections, if there is such an
    entry. *)
Lemma Disconnect_application socketID w w' :
  Disconnect socketID w = Some (tt, w') →
  application w'
  = match connections (application w) !! socketID with
    | None => application w
    | Some conn =>
        if bool_decide (is_Some (connections (application w) !! connection.SocketID conn))
        then with_Stats
               (with_connections (application w)
                  (delete (connection.SocketID conn) (connections (application w))))
               (expvar_Add (Stats (application w)) "TotalConnections" (-1))
        else application w
    end.
Proof.
  unfold Disconnect, bind, FindConnection, bind, gets, log_Infof, modify. cbn.
  destruct (connections (application w) !! socketID) as [conn|] eqn:Hconn; cbn.
  - match goal with
    | |- context [for_range ?l ?body ?w0] =>
        destruct (for_range l body w0) as [[[] w1]|] eqn:Hloop; [|discriminate];
        assert (Happ : application w1 = application w)
    end.
    { revert Hloop. apply (for_range_preserves (λ w2, application w2 = application w)).
      - intros x w2 w3 _ Hx <-. by apply Disconnect_unsubscribe_application in Hx.
      - reflexivity. }
    rewrite Happ.
    destruct (bool_decide _); cbn.
    + unfold update_application, Stats_Add, update_application, modify. cbn.
      intros [= <-]. cbn. by rewrite Happ.
    + intros [= <-]. exact Happ.
  - intros [= <-]. reflexivity.
Qed.

(** ** The counter invariant *)

Lemma wrap64_succ (n : nat) : wrap64 (wrap64 (Z.of_nat n) + 1) = wrap64 (Z.of_nat (S n)).
Proof. rewrite wrap64_add_l. f_equal. lia. Qed.

Lemma wrap64_pred (n : nat) : wrap64 (wrap64 (Z.of_nat (S n)) + -1) = wrap64 (Z.of_nat n).
Proof. rewrite wrap64_add_l. f_equal. lia. Qed.

Lemma registered_size_delete {V} (m : gmap string V) id v :
  m !! id = Some v → size m = S (size (delete id m)).
Proof.
  intros Hid. rewrite <- (insert_delete_id m id v Hid) at 1.
  apply map_size_insert_None, lookup_delete_eq.
Qed.

Lemma counters_track_fresh name appID key secret onlySSL enabled userEvents webHooks url :
  counters_track
    (NewApplication name appID key secret onlySSL enabled userEvents webHooks url).
Proof.
  unfold counters_track, TotalConnections, TotalChannels, registered_of_kind.
  cbn [NewApplication connections channels Stats].
  rewrite !map_size_empty.
  split; [reflexivity|]. split; [reflexivity|].
  intros k. rewrite map_filter_empty, map_size_empty. by destruct k.
Qed.

Lemma Connect_tracks conn w w' :
  connections (application w) !! connection.SocketID conn = None →
  Connect conn w = Some (tt, w') →
  counters_track (application w) → counters_track (application w').
Proof.
  intros Hnew. rewrite Connect_spec. intros [= <-] (Hconn & Hchan & Hkind).
  unfold counters_track, TotalConnections, TotalChannels in *. cbn.
  rewrite expvar_Get_Add_eq, (map_size_insert_None _ _ _ Hnew), Hconn.
  split; [apply wrap64_succ|]. split.
  - rewrite expvar_Get_Add_ne by discriminate. exact Hchan.
  - intros k. rewrite expvar_Get_Add_ne by apply not_eq_sym, kind_counter_not_connections.
    apply Hkind.
Qed.

Lemma Disconnect_tracks socketID w w' :
  Disconnect socketID w = Some (tt, w') →
  counters_track (application w) → counters_track (application w').
Proof.
  intros Hrun%Disconnect_application Htrack. rewrite Hrun.
  destruct (connections (application w) !! socketID) as [conn|]; [|exact Htrack].
  destruct (bool_decide_reflect
              (is_Some (connections (application w) !! connection.SocketID conn)))
    as [[old Hold]|_]; [|exact Htrack].
  destruct Htrack as (Hconn & Hchan & Hkind).
  unfold counters_track, TotalConnections, TotalChannels in *. cbn.
  rewrite expvar_Get_Add_eq, Hconn. split; [|split].
  - rewrite (registered_size_delete _ _ _ Hold). apply wrap64_pred.
  - rewrite expvar_Get_Add_ne by discriminate. exact Hchan.
  - intros k. rewrite expvar_Get_Add_ne by apply not_eq_sym, kind_counter_not_connections.
    apply Hkind.
Qed.

Lemma kind_counters_adjusted delta k k' stats :
  expvar_Get (adjust_counters delta k stats) (kind_counter k')
  = if decide (k = k') then wrap64 (expvar_Get stats (kind_counter k') + delta)
    else expvar_Get stats (kind_counter k').
Proof.
  destruct (decide (k = k')) as [<-|Hne].
  - apply adjust_counters_kind.
  - apply adjust_counters_other; [|apply kind_counter_not_total].
    intros Heq%kind_counter_inj. congruence.
Qed.

Lemma AddChannel_tracks c ch w w' :
  objects w !! c = Some ch →
  channels (application w) !! channel.ID ch = None →
  AddChannel c w = Some (tt, w') →
  counters_track (application w) → counters_track (application w').
Proof.
  intros Hc Hnew. rewrite (AddChannel_spec c ch w Hc).
  intros [= <-] (Hconn & Hchan & Hkind).
  unfold counters_track, TotalConnections, TotalChannels in *. cbn.
  split; [|split].
  - rewrite adjust_counters_other;
      [exact Hconn | apply not_eq_sym, kind_counter_not_connections | discriminate].
  - rewrite adjust_counters_total, (map_size_insert_None _ _ _ Hnew), Hchan.
    apply wrap64_succ.
  - intros k. rewrite kind_counters_adjusted, (registered_of_kind_insert _ _ _ _ Hnew), Hkind.
    unfold channel.kind.
    destruct (decide (channel.kind_of_id (channel.ID ch) = k)); [apply wrap64_succ | reflexivity].
Qed.

Lemma RemoveChannel_tracks c ch old w w' :
  objects w !! c = Some ch →
  channels (application w) !! channel.ID ch = Some old →
  RemoveChannel c w = Some (tt, w') →
  counters_track (application w) → counters_track (application w').
Proof.
  intros Hc Hold. rewrite (RemoveChannel_spec c ch w Hc).
  intros [= <-] (Hconn & Hchan & Hkind).
  unfold counters_track, TotalConnections, TotalChannels in *. cbn.
  split; [|split].
  - rewrite adjust_counters_other;
      [exact Hconn | apply not_eq_sym, kind_counter_not_connections | discriminate].
  - rewrite adjust_counters_total, Hchan, (registered_size_delete _ _ _ Hold).
    apply wrap64_pred.
  - intros k. rewrite kind_counters_adjusted, Hkind.
    rewrite (registered_of_kind_delete k _ _ _ Hold).
    unfold channel.kind.
    destruct (decide (channel.kind_of_id (channel.ID ch) = k)); [apply wrap64_pred | reflexivity].
Qed.

Lemma exec_tracks o w w' :
  well_used o w = true →
  exec o w = Some (tt, w') →
  counters_track (application w) → counters_track (application w').
Proof.
  destruct o as [conn|socketID|c|c]; cbn [well_used exec].
  - intros Hnew%bool_decide_eq_true. by apply Connect_tracks.
  - intros _. apply Disconnect_tracks.
  - destruct (objects w !! c) as [ch|] eqn:Hc; [|discriminate].
    intros Hnew%bool_decide_eq_true. by apply (AddChannel_tracks c ch).
  - destruct (objects w !! c) as [ch|] eqn:Hc; [|discriminate].
    intros [old Hold]%bool_decide_eq_true. by apply (RemoveChannel_tracks c ch old).
Qed.

Lemma run_well_used_tracks ops w w' :
  run_well_used ops w = Some w' →
  counters_track (application w) → counters_track (application w').
Proof.
  revert w. induction ops as [|o ops IH]; intros w; cbn [run_well_used].
  - intros [= <-]. auto.
  - destruct (well_used o w) eqn:Hused; [|discriminate].
    destruct (exec o w) as [[[] w1]|] eqn:Hexec; [|discriminate].
    intros Hrest Htrack. apply (IH w1 Hrest). by apply (exec_tracks o w).
Qed.

(** A well-used run is a run. *)
Lemma run_well_used_run ops w w' :
  run_well_used ops w = Some w' → run ops w = Some (tt, w').
Proof.
  revert w. induction ops as [|o ops IH]; intros w; cbn [run_well_used].
  - intros [= <-]. reflexivity.
  - destruct (well_used o w); [|discriminate]. rewrite run_cons.
    destruct (exec o w) as [[[] w1]|]; [apply IH | discriminate].
Qed.

Lemma counters_track_match a :
  counters_track a →
  Z.of_nat (size (connections a)) < 2 ^ 63 →
  Z.of_nat (size (channels a)) < 2 ^ 63 →
  counters_match a.
Proof.
  intros (Hconn & Hchan & Hkind) Hbc Hbh.
  pose proof (registered_of_kind_sum (channels a)) as Hsum.
  unfold counters_match, TotalPresenceChannels, TotalPrivateChannels, TotalPublicChannels.
  pose proof (Hkind channel.Presence) as Hpresence.
  pose proof (Hkind channel.Private) as Hprivate.
  pose proof (Hkind channel.Public) as Hpublic.
  cbn [kind_counter] in Hpresence, Hprivate, Hpublic.
  rewrite Hconn, Hchan, Hpresence, Hprivate, Hpublic.
  rewrite !wrap64_id by (unfold int64; lia).
  repeat split. lia.
Qed.

(** C2, as the code has it: start from a fresh Application, beside any
    store of channel objects, and issue Connect, Disconnect, AddChannel
    and RemoveChannel calls of which every Connect is for a socket
    identifier the registry does not hold, every AddChannel for a channel
    identifier the registry does not hold, and every RemoveChannel for a
    channel identifier the registry holds. Then, for registries of fewer
    than 2^63 entries (the counters are int64), TotalConnections is the
    number of registered connections, TotalChannels the number of
    registered channels, and the three per-kind counters sum to
    TotalChannels. *)
Theorem counters_match_registries_when_well_used :
  ∀ (name appID key secret : string) (onlySSL enabled userEvents webHooks : bool)
    (url : string) (objs : gmap channel.ptr channel.Channel) (ops : list Op) (w : World),
    run_well_used ops
      (fresh_world (NewApplication name appID key secret onlySSL enabled
                                   userEvents webHooks url) objs) = Some w →
    Z.of_nat (size (connections (application w))) < 2 ^ 63 →
    Z.of_nat (size (channels (application w))) < 2 ^ 63 →
    run ops (fresh_world (NewApplication name appID key secret onlySSL enabled
                                         userEvents webHooks url) objs) = Some (tt, w)
    ∧ counters_match (application w).
Proof.
  intros name appID key secret onlySSL enabled userEvents webHooks url objs ops w
         Hrun Hbc Hbh.
  split; [by apply run_well_used_run|].
  apply counters_track_match; [|exact Hbc|exact Hbh].
  apply (run_well_used_tracks ops _ w Hrun). cbn [fresh_world application].
  apply counters_track_fresh.
Qed.

Lemma counters_match_registries_when_well_used_witness :
  run_well_used well_used_calls (fresh_world demo_app two_unregistered_channels)
  = Some world_after_well_used_calls
  ∧ Z.of_nat (size (connections (application world_after_well_used_calls))) < 2 ^ 63
  ∧ Z.of_nat (size (channels (application world_after_well_used_calls))) < 2 ^ 63
  ∧ counters_match (application world_after_well_used_calls)
  ∧ TotalConnections (application world_after_well_used_calls) = 1
  ∧ TotalChannels (application world_after_well_used_calls) = 1
  ∧ TotalPresenceChannels (application world_after_well_used_calls) = 1.
Proof.
  assert (H1 : run_well_used well_used_calls (fresh_world demo_app two_unregistered_channels)
               = Some world_after_well_used_calls) by (vm_compute; reflexivity).
  assert (H2 : Z.of_nat (size (connections (application world_after_well_used_calls)))
               < 2 ^ 63) by (vm_compute; reflexivity).
  assert (H3 : Z.of_nat (size (channels (application world_after_well_used_calls)))
               < 2 ^ 63) by (vm_compute; reflexivity).
  split; [exact H1|]. split; [exact H2|]. split; [exact H3|].
  split.
  - exact (proj2 (counters_match_registries_when_well_used
                    "demo" "1" "key" "secret" false true true true "http://hooks"
                    two_unregistered_channels well_used_calls
                    world_after_well_used_calls H1 H2 H3)).
  - by_evaluation.
Defined.

(** C2, as stated, fails: connecting the same socket identifier twice is
    a sequence of Connect calls from a fresh Application, and it leaves
    TotalConnections at 2 with one connection registered. *)
Lemma duplicate_Connect_breaks_counters :
  ∃ w,
    run [OpConnect sock1; OpConnect sock1'] (fresh_world demo_app ∅) = Some (tt, w)
    ∧ TotalConnections (application w) = 2
    ∧ size (connections (application w)) = 1%nat
    ∧ ¬ counters_match (application w).
Proof.
  eexists. split; [vm_compute; reflexivity|].
  split; [vm_compute; reflexivity|]. split; [vm_compute; reflexivity|].
  intros [Hconn _]. vm_compute in Hconn. discriminate.
Qed.

(** The same drift through the channel registry: adding a second object
    under an identifier already registered, or removing an object whose
    identifier is not registered. *)
Example unguarded_channel_calls_break_counters :
  (∃ w, run [OpAddChannel 0%nat; OpAddChannel 1%nat]
            (fresh_world demo_app {[ 0%nat := channel.New "lobby" [];
                                     1%nat := channel.New "lobby" [] ]}) = Some (tt, w)
        ∧ TotalChannels (application w) = 2
        ∧ size (channels (application w)) = 1%nat)
  ∧ (∃ w, run [OpRemoveChannel 0%nat] world_with_stray_channel = Some (tt, w)
          ∧ TotalChannels (application w) = -1
          ∧ size (channels (application w)) = 0%nat).
Proof. split; eexists; by_evaluation. Qed.

(** ** Disconnect and the channel registry *)

(** [Disconnect] never changes the channel registry or a channel counter:
    it reaches the channel objects through [c.Unsubscribe], not through
    [Application.Unsubscribe] or [RemoveChannel]. *)
Lemma Disconnect_keeps_channel_registry socketID w w' :
  Disconnect socketID w = Some (tt, w') →
  channels (application w') = channels (application w)
  ∧ TotalChannels (application w') = TotalChannels (application w).
Proof.
  intros Hrun%Disconnect_application. rewrite Hrun.
  destruct (connections (application w) !! socketID) as [conn|]; [|auto].
  destruct (bool_decide _); [|auto]. cbn. split; [reflexivity|].
  unfold TotalChannels. cbn. by rewrite expvar_Get_Add_ne.
Qed.

(** C1 at the failing input: after connect ["sock-1"], find or create
    ["presence-room"] and subscribe ["sock-1"] to it, [Disconnect "sock-1"]
    unregisters the connection and takes it off the roster of the channel,
    which is left empty (MemberRemoved and Vacated are triggered); but the
    channel stays in the registry: [FindChannelByChannelID] still returns
    it, without error, and TotalChannels is still 1. *)
Theorem Disconnect_leaves_vacated_channel_registered :
  ∃ w',
    Disconnect "sock-1" world_subscribed = Some (tt, w')
    ∧ FindConnection "sock-1" w' = Some (Fail "connection not found", w')
    ∧ TotalConnections (application w') = 0
    ∧ c_IsSubscribed 0%nat sock1 w' = Some (false, w')
    ∧ c_IsOccupied 0%nat w' = Some (false, w')
    ∧ dispatched w'
      = dispatched world_subscribed
          ++ [mkWebhook member_removed 0%nat
                        (Some (channel.mkSubscription sock1 0%nat "{user_id:u1}"));
              mkWebhook channel_vacated 0%nat None]
    ∧ FindChannelByChannelID "presence-room" w' = Some (Ok 0%nat, w')
    ∧ TotalChannels (application w') = 1
    ∧ TotalPresenceChannels (application w') = 1.
Proof. eexists. by_evaluation. Qed.

(** The part of C1 that the code does: [Disconnect] of a registered
    connection returns, takes the connection off the roster of every
    registered channel, unregisters it, and leaves the channel registry
    as it was, vacated channels included. *)

Lemma channel_Unsubscribe_unsubscribes self ch conn :
  channel.IsSubscribed (channel.after (channel.Unsubscribe self ch conn)) conn = false.
Proof.
  unfold channel.Unsubscribe, channel.IsSubscribed.
  destruct (channel.Subscriptions ch !! connection.SocketID conn) eqn:Hs; cbn.
  - rewrite lookup_delete_eq. apply bool_decide_eq_false. by intros [? ?].
  - rewrite Hs. apply bool_decide_eq_false. by intros [? ?].
Qed.

Lemma stays_off_refl conn w : stays_off conn w w.
Proof. intros c ch Hc. eauto. Qed.

Lemma stays_off_trans conn w1 w2 w3 :
  stays_off conn w1 w2 → stays_off conn w2 w3 → stays_off conn w1 w3.
Proof.
  intros H12 H23 c ch Hc.
  destruct (H12 c ch Hc) as (ch2 & Hc2 & Hoff2).
  destruct (H23 c ch2 Hc2) as (ch3 & Hc3 & Hoff3).
  exists ch3. split; [exact Hc3 | auto].
Qed.

Lemma Disconnect_unsubscribe_off conn entry ch w :
  objects w !! entry.2 = Some ch →
  ∃ w',
    Disconnect_unsubscribe conn entry w = Some (tt, w')
    ∧ application w' = application w
    ∧ stays_off conn w w'
    ∧ ∃ ch', objects w' !! entry.2 = Some ch' ∧ channel.IsSubscribed ch' conn = false.
Proof.
  intros Hc. rewrite (Disconnect_unsubscribe_spec conn entry ch w Hc).
  eexists. split; [reflexivity|].
  destruct (channel.IsSubscribed ch conn) eqn:Hsub; cbn.
  - split; [reflexivity|]. split.
    + intros c' ch' Hc'. cbn [objects].
      destruct (decide (c' = entry.2)) as [->|Hne].
      * rewrite lookup_insert_eq. eexists. split; [reflexivity|].
        intros _. apply channel_Unsubscribe_unsubscribes.
      * rewrite lookup_insert_ne by congruence. eauto.
    + rewrite lookup_insert_eq. eexists. split; [reflexivity|].
      apply channel_Unsubscribe_unsubscribes.
  - split; [reflexivity|]. split; [apply stays_off_refl|]. eauto.
Qed.

Lemma Disconnect_loop_off conn entries w :
  (∀ e, e ∈ entries → is_Some (objects w !! e.2)) →
  ∃ w',
    for_range entries (Disconnect_unsubscribe conn) w = Some (tt, w')
    ∧ application w' = application w
    ∧ stays_off conn w w'
    ∧ ∀ e, e ∈ entries →
           ∃ ch', objects w' !! e.2 = Some ch' ∧ channel.IsSubscribed ch' conn = false.
Proof.
  revert w. induction entries as [|e entries IH]; intros w Hvalid.
  - exists w. split; [reflexivity|]. split; [reflexivity|].
    split; [apply stays_off_refl|]. intros e He. by apply elem_of_nil in He.
  - destruct (Hvalid e ltac:(apply list_elem_of_here)) as [ch Hc].
    destruct (Disconnect_unsubscribe_off conn e ch w Hc)
      as (w1 & Hstep & Happ1 & Hoff1 & ch1 & Hc1 & Hsub1).
    destruct (IH w1) as (w' & Hrest & Happ' & Hoff' & Hall).
    { intros e' He'.
      destruct (Hvalid e' ltac:(by apply list_elem_of_further)) as [ch' Hc'].
      destruct (Hoff1 _ _ Hc') as (ch'' & Hc'' & _). eauto. }
    exists w'. split; [|split; [|split]].
    + cbn [for_range]. unfold bind. by rewrite Hstep.
    + congruence.
    + by apply (stays_off_trans conn w w1 w').
    + intros e' [->|He']%elem_of_cons; [|by apply Hall].
      destruct (Hoff' _ _ Hc1) as (ch' & Hc' & Hkeep). eauto.
Qed.

Lemma Disconnect_unsubscribes_everywhere socketID conn w :
  connections (application w) !! socketID = Some conn →
  connection.SocketID conn = socketID →
  (∀ k c, channels (application w) !! k = Some c → is_Some (objects w !! c)) →
  ∃ w',
    Disconnect socketID w = Some (tt, w')
    ∧ connections (application w') = delete socketID (connections (application w))
    ∧ channels (application w') = channels (application w)
    ∧ ∀ k c, channels (application w) !! k = Some c →
             ∃ ch', objects w' !! c = Some ch' ∧ channel.IsSubscribed ch' conn = false.
Proof.
  intros Hconn Hid Hvalid.
  set (w0 := mkWorld (application w) (objects w)
                     (logged w ++ [glog.Infof "disconnecting socket %+v" [socketID]])
                     (dispatched w)).
  destruct (Disconnect_loop_off conn (map_to_list (channels (application w))) w0)
    as (w1 & Hloop & Happ & _ & Hall).
  { intros [k c] He. apply elem_of_map_to_list in He. by apply (Hvalid k c). }
  unfold Disconnect, bind, FindConnection, bind, gets, log_Infof, modify. cbn.
  rewrite Hconn. cbn. fold w0. rewrite Hloop, Happ. cbn [application w0].
  rewrite Hid, Hconn.
  rewrite bool_decide_eq_true_2 by eauto. cbn.
  eexists. split; [reflexivity|]. cbn. rewrite Happ. cbn.
  split; [reflexivity|]. split; [reflexivity|].
  intros k c Hk. apply (Hall (k, c)). by apply elem_of_map_to_list.
Qed.

(** * Further properties of the registries *)

(** ** Lookups after registration *)

Lemma FindConnection_spec socketID w :
  FindConnection socketID w
  = Some (match connections (application w) !! socketID with
          | Some conn => Ok conn
          | None => Fail "connection not found"
          end, w).
Proof.
  unfold FindConnection, bind, gets.
  destruct (connections (application w) !! socketID); reflexivity.
Qed.

(** X1: after [Connect conn], [FindConnection] finds [conn] under its
    socket identifier, whatever was registered there before, and answers
    for every other identifier as it did before. *)
Theorem Connect_then_FindConnection :
  ∀ (w : World) (conn : connection.Connection),
    ∃ w',
      Connect conn w = Some (tt, w')
      ∧ FindConnection (connection.SocketID conn) w' = Some (Ok conn, w')
      ∧ ∀ socketID,
          socketID ≠ connection.SocketID conn →
          fst <$> FindConnection socketID w' = fst <$> FindConnection socketID w.
Proof.
  intros w conn. rewrite Connect_spec. eexists. split; [reflexivity|]. split.
  - rewrite FindConnection_spec. cbn. by rewrite lookup_insert_eq.
  - intros socketID Hne. rewrite !FindConnection_spec. cbn.
    by rewrite lookup_insert_ne.
Qed.

Lemma Connect_then_FindConnection_witness :
  "sock-2" ≠ connection.SocketID sock1'
  ∧ ∃ w',
      Connect sock1' world_with_sock1 = Some (tt, w')
      ∧ FindConnection "sock-1" w' = Some (Ok sock1', w')
      ∧ fst <$> FindConnection "sock-2" w' = Some (Fail "connection not found").
Proof.
  split; [discriminate|].
  destruct (Connect_then_FindConnection world_with_sock1 sock1')
    as (w' & Hrun & Hfind & Hother).
  exists w'. split; [exact Hrun|]. split; [exact Hfind|].
  rewrite (Hother "sock-2") by discriminate. vm_compute; reflexivity.
Defined.

(** X2: after [AddChannel c], [FindChannelByChannelID] finds [c] under
    the identifier of its object, whatever was registered there before,
    and answers for every other identifier as it did before. *)
Theorem AddChannel_then_FindChannelByChannelID :
  ∀ (w : World) (c : channel.ptr) (ch : channel.Channel),
    objects w !! c = Some ch →
    ∃ w',
      AddChannel c w = Some (tt, w')
      ∧ FindChannelByChannelID (channel.ID ch) w' = Some (Ok c, w')
      ∧ objects w' = objects w
      ∧ ∀ n, n ≠ channel.ID ch →
             fst <$> FindChannelByChannelID n w' = fst <$> FindChannelByChannelID n w.
Proof.
  intros w c ch Hc. rewrite (AddChannel_spec c ch w Hc).
  eexists. split; [reflexivity|]. split; [|split; [reflexivity|]].
  - rewrite FindChannelByChannelID_spec. cbn. by rewrite lookup_insert_eq.
  - intros n Hne. rewrite !FindChannelByChannelID_spec. cbn.
    by rewrite lookup_insert_ne.
Qed.

Lemma AddChannel_then_FindChannelByChannelID_witness :
  objects world_with_stray_channel !! 0%nat = Some (channel.New "presence-lobby" [])
  ∧ ∃ w',
      AddChannel 0%nat world_with_stray_channel = Some (tt, w')
      ∧ FindChannelByChannelID "presence-lobby" w' = Some (Ok 0%nat, w')
      ∧ fst <$> FindChannelByChannelID "lobby" w' = Some (Fail "channel does not exists").
Proof.
  split; [vm_compute; reflexivity|].
  destruct (AddChannel_then_FindChannelByChannelID
              world_with_stray_channel 0%nat (channel.New "presence-lobby" []))
    as (w' & Hrun & Hfind & _ & Hother).
  - vm_compute; reflexivity.
  - exists w'. split; [exact Hrun|]. split; [exact Hfind|].
    rewrite (Hother "lobby") by discriminate. vm_compute; reflexivity.
Defined.

(** ** Round trips *)

Lemma wrap64_add_sub z : int64 z → wrap64 (wrap64 (z + 1) + -1) = z.
Proof. intros Hz. rewrite wrap64_add_l. rewrite <- (wrap64_id z Hz) at 2. f_equal. lia. Qed.

Lemma adjust_counters_there_and_back k stats key :
  int64 (expvar_Get stats key) →
  expvar_Get (adjust_counters (-1) k (adjust_counters 1 k stats)) key
  = expvar_Get stats key.
Proof.
  intros Hrange.
  destruct (decide (key = "TotalChannels")) as [->|Htotal].
  { rewrite !adjust_counters_total. by apply wrap64_add_sub. }
  destruct (decide (key = kind_counter k)) as [->|Hkind].
  { rewrite !adjust_counters_kind. by apply wrap64_add_sub. }
  by rewrite !adjust_counters_other.
Qed.

(** X3: [AddChannel c] followed by [RemoveChannel c], for a channel whose
    identifier was not registered, gives back the channel registry, the
    connection registry and the channel objects, and every counter that
    held an int64 has its value again. *)
Theorem AddChannel_then_RemoveChannel_restores :
  ∀ (w : World) (c : channel.ptr) (ch : channel.Channel),
    objects w !! c = Some ch →
    channels (application w) !! channel.ID ch = None →
    ∃ w',
      run [OpAddChannel c; OpRemoveChannel c] w = Some (tt, w')
      ∧ channels (application w') = channels (application w)
      ∧ connections (application w') = connections (application w)
      ∧ objects w' = objects w
      ∧ ∀ key, int64 (expvar_Get (Stats (application w)) key) →
               expvar_Get (Stats (application w')) key
               = expvar_Get (Stats (application w)) key.
Proof.
  intros w c ch Hc Hnew. rewrite run_cons. cbn [exec].
  rewrite (AddChannel_spec c ch w Hc). cbv beta iota.
  rewrite run_cons. cbn [exec].
  erewrite RemoveChannel_spec by (cbn; exact Hc).
  rewrite run_nil. eexists. split; [reflexivity|]. cbn.
  split; [by rewrite delete_insert_eq, delete_id|].
  split; [reflexivity|]. split; [reflexivity|].
  intros key. apply adjust_counters_there_and_back.
Qed.

Lemma AddChannel_then_RemoveChannel_restores_witness :
  objects world_with_stray_channel !! 0%nat = Some (channel.New "presence-lobby" [])
  ∧ channels (application world_with_stray_channel) !! "presence-lobby" = None
  ∧ ∃ w',
      run [OpAddChannel 0%nat; OpRemoveChannel 0%nat] world_with_stray_channel = Some (tt, w')
      ∧ channels (application w') = channels (application world_with_stray_channel)
      ∧ TotalChannels (application w') = 0
      ∧ TotalPresenceChannels (application w') = 0.
Proof.
  split; [vm_compute; reflexivity|]. split; [vm_compute; reflexivity|].
  destruct (AddChannel_then_RemoveChannel_restores
              world_with_stray_channel 0%nat (channel.New "presence-lobby" []))
    as (w' & Hrun & Hch & _ & _ & Hstats).
  - vm_compute; reflexivity.
  - vm_compute; reflexivity.
  - exists w'. split; [exact Hrun|]. split; [exact Hch|].
    unfold TotalChannels, TotalPresenceChannels.
    split; (rewrite Hstats;
            [vm_compute; reflexivity | vm_compute; split; [discriminate | reflexivity]]).
Defined.

(** ** What Disconnect changes, and what it leaves *)

Lemma without_socket_not_subscribed socketID ch :
  channel.Subscriptions ch !! socketID = None → without_socket socketID ch = ch.
Proof.
  intros Hnone. unfold without_socket, channel.with_Subscriptions.
  rewrite delete_id by exact Hnone. by destruct ch.
Qed.

Lemma without_socket_idem socketID ch :
  without_socket socketID (without_socket socketID ch) = without_socket socketID ch.
Proof. unfold without_socket, channel.with_Subscriptions. cbn. by rewrite delete_delete_eq. Qed.

Lemma channel_Unsubscribe_after self ch conn :
  channel.after (channel.Unsubscribe self ch conn)
  = without_socket (connection.SocketID conn) ch.
Proof.
  unfold channel.Unsubscribe.
  destruct (channel.Subscriptions ch !! connection.SocketID conn) eqn:Hs; cbn.
  - reflexivity.
  - symmetry. by apply without_socket_not_subscribed.
Qed.

Lemma Disconnect_unsubscribe_objects conn entry ch w :
  objects w !! entry.2 = Some ch →
  ∃ w',
    Disconnect_unsubscribe conn entry w = Some (tt, w')
    ∧ application w' = application w
    ∧ objects w' = <[entry.2 := without_socket (connection.SocketID conn) ch]> (objects w).
Proof.
  intros Hc. rewrite (Disconnect_unsubscribe_spec conn entry ch w Hc).
  eexists. split; [reflexivity|].
  destruct (channel.IsSubscribed ch conn) eqn:Hsub; cbn.
  - split; [reflexivity|]. by rewrite channel_Unsubscribe_after.
  - split; [reflexivity|].
    unfold channel.IsSubscribed in Hsub. apply bool_decide_eq_false in Hsub.
    rewrite without_socket_not_subscribed.
    + symmetry. by apply insert_id.
    + destruct (channel.Subscriptions ch !! connection.SocketID conn) eqn:Hs; [|reflexivity].
      destruct Hsub. eauto.
Qed.

(** The loop of [Disconnect], in any order of the entries: it returns,
    leaves the Application alone, takes the socket off the roster of every
    object it visits and leaves the other objects as they are. *)
Lemma Disconnect_loop_objects conn entries w :
  (∀ e, e ∈ entries → is_Some (objects w !! e.2)) →
  ∃ w',
    for_range entries (Disconnect_unsubscribe conn) w = Some (tt, w')
    ∧ application w' = application w
    ∧ ∀ c, objects w' !! c
           = if bool_decide (c ∈ entries.*2)
             then without_socket (connection.SocketID conn) <$> objects w !! c
             else objects w !! c.
Proof.
  revert w. induction entries as [|e entries IH]; intros w Hvalid.
  - exists w. split; [reflexivity|]. split; [reflexivity|]. intros c.
    rewrite bool_decide_eq_false_2; [reflexivity | apply not_elem_of_nil].
  - destruct (Hvalid e ltac:(apply list_elem_of_here)) as [ch Hc].
    destruct (Disconnect_unsubscribe_objects conn e ch w Hc) as (w1 & Hstep & Happ1 & Hobj1).
    destruct (IH w1) as (w' & Hrest & Happ' & Hobj').
    { intros e' He'. rewrite Hobj1.
      destruct (decide (e'.2 = e.2)) as [->|Hne].
      - rewrite lookup_insert_eq. eauto.
      - rewrite lookup_insert_ne by congruence.
        apply Hvalid. by apply list_elem_of_further. }
    exists w'. split; [|split].
    + cbn [for_range]. unfold bind. by rewrite Hstep.
    + congruence.
    + intros c. rewrite Hobj', Hobj1. cbn [fmap list_fmap].
      destruct (decide (c = e.2)) as [->|Hne].
      * rewrite lookup_insert_eq, Hc.
        rewrite (bool_decide_eq_true_2 (e.2 ∈ e.2 :: entries.*2)) by apply list_elem_of_here.
        cbn. rewrite without_socket_idem. by destruct (bool_decide _).
      * rewrite lookup_insert_ne by congruence.
        destruct (bool_decide_reflect (c ∈ entries.*2)) as [Hin|Hnin].
        -- rewrite bool_decide_eq_true_2; [reflexivity | by apply list_elem_of_further].
        -- rewrite bool_decide_eq_false_2; [reflexivity|].
           intros [?|?]%elem_of_cons; congruence.
Qed.

(** [Disconnect] of a connection registered under its own socket
    identifier, in closed form. *)
Lemma Disconnect_effect socketID conn w :
  connections (application w) !! socketID = Some conn →
  connection.SocketID conn = socketID →
  (∀ k c, channels (application w) !! k = Some c → is_Some (objects w !! c)) →
  ∃ w',
    Disconnect socketID w = Some (tt, w')
    ∧ application w'
      = with_Stats
          (with_connections (application w) (delete socketID (connections (application w))))
          (expvar_Add (Stats (application w)) "TotalConnections" (-1))
    ∧ (∀ k c, channels (application w) !! k = Some c →
              objects w' !! c = without_socket socketID <$> objects w !! c)
    ∧ (∀ c, (∀ k, channels (application w) !! k ≠ Some c) →
            objects w' !! c = objects w !! c).
Proof.
  intros Hconn Hid Hvalid.
  set (w0 := mkWorld (application w) (objects w)
                     (logged w ++ [glog.Infof "disconnecting socket %+v" [socketID]])
                     (dispatched w)).
  destruct (Disconnect_loop_objects conn (map_to_list (channels (application w))) w0)
    as (w1 & Hloop & Happ & Hobj).
  { intros [k c] He. apply elem_of_map_to_list in He. by apply (Hvalid k c). }
  unfold Disconnect, bind, FindConnection, bind, gets, log_Infof, modify. cbn.
  rewrite Hconn. cbn. fold w0. rewrite Hloop, Happ. cbn [application w0].
  rewrite Hid, Hconn.
  rewrite bool_decide_eq_true_2 by eauto. cbn.
  eexists. split; [reflexivity|]. cbn. rewrite Happ. cbn.
  split; [reflexivity|]. rewrite Hid in Hobj. split.
  - intros k c Hk. rewrite Hobj. rewrite bool_decide_eq_true_2; [reflexivity|].
    apply list_elem_of_fmap. exists (k, c). split; [reflexivity|].
    by apply elem_of_map_to_list.
  - intros c Hnot. rewrite Hobj. rewrite bool_decide_eq_false_2; [reflexivity|].
    intros ([k c'] & -> & Hin)%list_elem_of_fmap.
    apply elem_of_map_to_list in Hin. by apply (Hnot k).
Qed.

Lemma Disconnect_miss socketID w :
  connections (application w) !! socketID = None →
  ∃ w',
    Disconnect socketID w = Some (tt, w')
    ∧ application w' = application w
    ∧ objects w' = objects w
    ∧ dispatched w' = dispatched w.
Proof.
  intros Hnone.
  unfold Disconnect, bind, FindConnection, gets, log_Infof, modify. cbn.
  rewrite Hnone. cbn. eexists. split; [reflexivity|]. by cbn.
Qed.

(** X4: [Connect conn] followed by [Disconnect] of its socket
    identifier, for an identifier that was not registered, returns and
    gives back both registries; every counter that held an int64 has its
    value again (TotalConnections went up and down by one). *)
Theorem Connect_then_Disconnect_restores :
  ∀ (w : World) (conn : connection.Connection),
    connections (application w) !! connection.SocketID conn = None →
    (∀ k c, channels (application w) !! k = Some c → is_Some (objects w !! c)) →
    ∃ w',
      run [OpConnect conn; OpDisconnect (connection.SocketID conn)] w = Some (tt, w')
      ∧ connections (application w') = connections (application w)
      ∧ channels (application w') = channels (application w)
      ∧ ∀ key, int64 (expvar_Get (Stats (application w)) key) →
               expvar_Get (Stats (application w')) key
               = expvar_Get (Stats (application w)) key.
Proof.
  intros w conn Hnew Hvalid. rewrite run_cons. cbn [exec]. rewrite Connect_spec.
  cbv beta iota. rewrite run_cons. cbn [exec].
  match goal with
  | |- context [Disconnect _ ?w1] =>
      destruct (Disconnect_effect (connection.SocketID conn) conn w1)
      as (w' & Hrun & Happ & _)
  end.
  { cbn. apply lookup_insert_eq. }
  { reflexivity. }
  { exact Hvalid. }
  rewrite Hrun, run_nil. exists w'. split; [reflexivity|]. rewrite Happ.
  cbn [application connections channels Stats with_Stats with_connections].
  split; [by rewrite delete_insert_eq, delete_id|]. split; [reflexivity|].
  intros key Hrange.
  destruct (decide (key = "TotalConnections")) as [->|Hne].
  - rewrite !expvar_Get_Add_eq. by apply wrap64_add_sub.
  - by rewrite !expvar_Get_Add_ne.
Qed.

Lemma Connect_then_Disconnect_restores_witness :
  connections (application world_four_channels) !! connection.SocketID sock2 = None
  ∧ (∀ k c, channels (application world_four_channels) !! k = Some c →
            is_Some (objects world_four_channels !! c))
  ∧ ∃ w',
      run [OpConnect sock2; OpDisconnect "sock-2"] world_four_channels = Some (tt, w')
      ∧ connections (application w') = connections (application world_four_channels)
      ∧ TotalConnections (application w') = 0.
Proof.
  assert (Hvalid : ∀ k c, channels (application world_four_channels) !! k = Some c →
                          is_Some (objects world_four_channels !! c)).
  { apply (bool_decide_unpack
             (map_Forall (λ (_ : string) c, is_Some (objects world_four_channels !! c))
                         (channels (application world_four_channels)))).
    vm_compute. exact I. }
  split; [vm_compute; reflexivity|]. split; [exact Hvalid|].
  destruct (Connect_then_Disconnect_restores world_four_channels sock2)
    as (w' & Hrun & Hconn & _ & Hstats).
  - vm_compute; reflexivity.
  - exact Hvalid.
  - exists w'. split; [exact Hrun|]. split; [exact Hconn|].
    unfold TotalConnections. rewrite Hstats; [vm_compute; reflexivity|].
    vm_compute. split; [discriminate | reflexivity].
Defined.

(** X5: a second [Disconnect] of the same socket identifier, after one
    that found the connection, returns and changes neither the
    Application nor any channel object, and triggers no webhook: the
    first call removed the entry. *)
Theorem Disconnect_twice_is_Disconnect_once :
  ∀ (w : World) (socketID : string) (conn : connection.Connection),
    connections (application w) !! socketID = Some conn →
    connection.SocketID conn = socketID →
    (∀ k c, channels (application w) !! k = Some c → is_Some (objects w !! c)) →
    ∃ w1 w2,
      Disconnect socketID w = Some (tt, w1)
      ∧ connections (application w1) !! socketID = None
      ∧ Disconnect socketID w1 = Some (tt, w2)
      ∧ application w2 = application w1
      ∧ objects w2 = objects w1
      ∧ dispatched w2 = dispatched w1.
Proof.
  intros w socketID conn Hconn Hid Hvalid.
  destruct (Disconnect_effect socketID conn w Hconn Hid Hvalid) as (w1 & Hrun1 & Happ1 & _).
  assert (Hgone : connections (application w1) !! socketID = None).
  { rewrite Happ1. cbn. apply lookup_delete_eq. }
  destruct (Disconnect_miss socketID w1 Hgone) as (w2 & Hrun2 & Happ2 & Hobj2 & Hdisp2).
  exists w1, w2. auto 10.
Qed.

Lemma Disconnect_twice_is_Disconnect_once_witness :
  connections (application world_subscribed) !! "sock-1" = Some sock1
  ∧ connection.SocketID sock1 = "sock-1"
  ∧ (∀ k c, channels (application world_subscribed) !! k = Some c →
            is_Some (objects world_subscribed !! c))
  ∧ ∃ w1 w2,
      Disconnect "sock-1" world_subscribed = Some (tt, w1)
      ∧ Disconnect "sock-1" w1 = Some (tt, w2)
      ∧ application w2 = application w1
      ∧ objects w2 = objects w1.
Proof.
  assert (Hvalid : ∀ k c, channels (application world_subscribed) !! k = Some c →
                          is_Some (objects world_subscribed !! c)).
  { apply (bool_decide_unpack
             (map_Forall (λ (_ : string) c, is_Some (objects world_subscribed !! c))
                         (channels (application world_subscribed)))).
    vm_compute. exact I. }
  split; [vm_compute; reflexivity|]. split; [reflexivity|]. split; [exact Hvalid|].
  destruct (Disconnect_twice_is_Disconnect_once world_subscribed "sock-1" sock1)
    as (w1 & w2 & H1 & _ & H2 & Happ & Hobj & _).
  - vm_compute; reflexivity.
  - reflexivity.
  - exact Hvalid.
  - exists w1, w2. auto.
Defined.

(** X6: [Disconnect] touches nothing but the disconnected socket. The
    entries of the other socket identifiers stay in the connection
    registry; every channel object keeps its identifier, its listeners and
    the subscriptions of the other sockets; and a channel object that is
    not in the registry is not visited, so it keeps even a subscription of
    the disconnected socket. *)
Theorem Disconnect_leaves_the_other_sockets :
  ∀ (w : World) (socketID : string) (conn : connection.Connection),
    connections (application w) !! socketID = Some conn →
    connection.SocketID conn = socketID →
    (∀ k c, channels (application w) !! k = Some c → is_Some (objects w !! c)) →
    ∃ w',
      Disconnect socketID w = Some (tt, w')
      ∧ (∀ other, other ≠ socketID →
                  connections (application w') !! other
                  = connections (application w) !! other)
      ∧ (∀ c ch, objects w !! c = Some ch →
                 ∃ ch',
                   objects w' !! c = Some ch'
                   ∧ channel.ID ch' = channel.ID ch
                   ∧ channel.OnOccupied ch' = channel.OnOccupied ch
                   ∧ channel.OnVacated ch' = channel.OnVacated ch
                   ∧ channel.OnMemberAdded ch' = channel.OnMemberAdded ch
                   ∧ channel.OnMemberRemoved ch' = channel.OnMemberRemoved ch
                   ∧ channel.OnClientEvent ch' = channel.OnClientEvent ch
                   ∧ ∀ other, other ≠ socketID →
                              channel.Subscriptions ch' !! other
                              = channel.Subscriptions ch !! other)
      ∧ (∀ c, (∀ k, channels (application w) !! k ≠ Some c) →
              objects w' !! c = objects w !! c).
Proof.
  intros w socketID conn Hconn Hid Hvalid.
  destruct (Disconnect_effect socketID conn w Hconn Hid Hvalid)
    as (w' & Hrun & Happ & Hreg & Hunreg).
  exists w'. split; [exact Hrun|]. split; [|split; [|exact Hunreg]].
  - intros other Hne. rewrite Happ. cbn. by rewrite lookup_delete_ne.
  - intros c ch Hc.
    destruct (decide (c ∈ (map_to_list (channels (application w))).*2)) as [Hin|Hnin].
    + apply list_elem_of_fmap in Hin as ([k c'] & -> & Hin).
      apply elem_of_map_to_list in Hin. cbn [snd] in *.
      exists (without_socket socketID ch). rewrite (Hreg k _ Hin), Hc.
      split; [reflexivity|]. cbn. repeat split.
      intros other Hne. by rewrite lookup_delete_ne.
    + exists ch. rewrite Hunreg, Hc; [auto 10|].
      intros k Hk. apply Hnin. apply list_elem_of_fmap. exists (k, c).
      split; [reflexivity|]. by apply elem_of_map_to_list.
Qed.

(** ** The keys of the registries, and calls that return *)

Lemma channel_Subscribe_ID self ch conn data :
  channel.ID (channel.after (channel.Subscribe self ch conn data)) = channel.ID ch.
Proof. reflexivity. Qed.

Lemma FindOrCreateChannelByChannelID_found n c w :
  channels (application w) !! n = Some c →
  FindOrCreateChannelByChannelID n w = Some (c, w).
Proof.
  intros Hn. unfold FindOrCreateChannelByChannelID, bind.
  rewrite FindChannelByChannelID_spec, Hn. reflexivity.
Qed.

Lemma FindOrCreateChannelByChannelID_created n w :
  channels (application w) !! n = None →
  FindOrCreateChannelByChannelID n w
  = Some (fresh (dom (objects w)),
          mkWorld
            (with_Stats
               (with_channels (application w)
                  (<[n := fresh (dom (objects w))]> (channels (application w))))
               (adjust_counters 1 (channel.kind_of_id n) (Stats (application w))))
            (<[fresh (dom (objects w)) := wired_channel n]> (objects w))
            (logged w ++ [glog.Infof "adding a new Channel %s to Application %s"
                                     [n; Name (application w)]])
            (dispatched w)).
Proof.
  intros Hn. unfold FindOrCreateChannelByChannelID, bind.
  rewrite FindChannelByChannelID_spec, Hn.
  unfold channel_New. rewrite alloc_spec.
  change (channel.New n _) with (wired_channel n).
  erewrite AddChannel_spec by (cbn; apply lookup_insert_eq). reflexivity.
Qed.

Lemma registry_keyed_fresh a objs :
  connections a = ∅ → channels a = ∅ → registry_keyed (fresh_world a objs).
Proof.
  intros Hconn Hchan. split; cbn; intros k x; rewrite ?Hconn, ?Hchan, lookup_empty;
    discriminate.
Qed.

(** Replacing an object by one of the same identifier keeps the keys. *)
Lemma registry_keyed_update w c ch ch' a' l d :
  registry_keyed w →
  objects w !! c = Some ch →
  channel.ID ch' = channel.ID ch →
  connections a' = connections (application w) →
  channels a' = channels (application w) →
  registry_keyed (mkWorld a' (<[c := ch']> (objects w)) l d).
Proof.
  intros [Hconn Hchan] Hc Hid Hsame1 Hsame2. split; cbn.
  - rewrite Hsame1. exact Hconn.
  - rewrite Hsame2. intros k c' Hk. destruct (Hchan k c' Hk) as (ch0 & Hc0 & Hid0).
    destruct (decide (c' = c)) as [->|Hne].
    + rewrite lookup_insert_eq. exists ch'. split; [reflexivity|]. congruence.
    + rewrite lookup_insert_ne by congruence. eauto.
Qed.

(** Dropping entries keeps the keys. *)
Lemma registry_keyed_shrink w a' l d :
  registry_keyed w →
  (∀ k conn, connections a' !! k = Some conn →
             connections (application w) !! k = Some conn) →
  (∀ k c, channels a' !! k = Some c → channels (application w) !! k = Some c) →
  registry_keyed (mkWorld a' (objects w) l d).
Proof.
  intros [Hconn Hchan] Hsub1 Hsub2. split; cbn.
  - intros k conn Hk. apply Hconn. by apply Hsub1.
  - intros k c Hk. apply Hchan. by apply Hsub2.
Qed.

Lemma registry_keyed_pointers w :
  registry_keyed w →
  ∀ k c, channels (application w) !! k = Some c → is_Some (objects w !! c).
Proof. intros [_ Hchan] k c Hk. destruct (Hchan k c Hk) as (ch & Hc & _). eauto. Qed.

Lemma registry_keyed_injective w :
  registry_keyed w →
  ∀ k1 k2 c, channels (application w) !! k1 = Some c →
             channels (application w) !! k2 = Some c → k1 = k2.
Proof.
  intros [_ Hchan] k1 k2 c H1 H2.
  destruct (Hchan k1 c H1) as (ch1 & Hc1 & <-).
  destruct (Hchan k2 c H2) as (ch2 & Hc2 & <-). congruence.
Qed.

Lemma Unsubscribe_keyed c ch conn w :
  registry_keyed w →
  objects w !! c = Some ch →
  ∃ r w', Unsubscribe c conn w = Some (r, w') ∧ registry_keyed w'.
Proof.
  intros Hkeyed Hc. rewrite (Unsubscribe_spec c ch conn w Hc). cbn zeta.
  set (o := channel.Unsubscribe c ch conn).
  assert (Hw1 : registry_keyed
                  (mkWorld (application w) (<[c := channel.after o]> (objects w)) (logged w)
                           (dispatched w ++ map webhook_of (channel.calls o)))).
  { apply (registry_keyed_update w c ch); auto. apply channel_Unsubscribe_ID. }
  destruct (channel.err o); [eauto|].
  destruct (channel.IsOccupied (channel.after o)); [eauto|].
  erewrite RemoveChannel_spec by (cbn; apply lookup_insert_eq).
  eexists _, _. split; [reflexivity|].
  match goal with
  | |- registry_keyed (mkWorld ?a' _ ?l ?d) =>
      apply (registry_keyed_shrink _ a' l d Hw1)
  end; cbn.
  - auto.
  - intros k c' [_ Hk]%lookup_delete_Some. exact Hk.
Qed.

(** One call of the interface, in a state with keyed registries and
    given no nil pointer, returns and keeps the registries keyed. *)
Lemma api_exec_keyed a w :
  registry_keyed w →
  pointer_valid a w = true →
  ∃ w', api_exec a w = Some (tt, w') ∧ registry_keyed w'.
Proof.
  intros Hkeyed Hptr. pose proof Hkeyed as [Hconn Hchan].
  destruct a as [conn|socketID|c|c|n|c conn data|c conn];
    cbn [api_exec]; unfold pointer_valid in Hptr; cbn [pointer_of] in Hptr.
  - rewrite Connect_spec. eexists. split; [reflexivity|]. split; cbn.
    + intros k conn' [[<- <-]|[_ Hk]]%lookup_insert_Some; [reflexivity | by apply Hconn].
    + exact Hchan.
  - destruct (connections (application w) !! socketID) as [conn|] eqn:Hfound.
    + destruct (Disconnect_effect socketID conn w Hfound (Hconn _ _ Hfound)
                  (registry_keyed_pointers w Hkeyed)) as (w' & Hrun & Happ & Hreg & _).
      exists w'. split; [exact Hrun|]. split; rewrite Happ; cbn.
      * intros k conn' [_ Hk]%lookup_delete_Some. by apply Hconn.
      * intros k c Hk. destruct (Hchan k c Hk) as (ch & Hc & Hid).
        exists (without_socket socketID ch). rewrite (Hreg k c Hk), Hc. auto.
    + destruct (Disconnect_miss socketID w Hfound) as (w' & Hrun & Happ & Hobj & _).
      exists w'. split; [exact Hrun|]. split; rewrite Happ, ?Hobj; assumption.
  - apply bool_decide_eq_true in Hptr as [ch Hc].
    rewrite (AddChannel_spec c ch w Hc). eexists. split; [reflexivity|]. split; cbn.
    + exact Hconn.
    + intros k c' [[<- <-]|[_ Hk]]%lookup_insert_Some; [eauto | by apply Hchan].
  - apply bool_decide_eq_true in Hptr as [ch Hc].
    rewrite (RemoveChannel_spec c ch w Hc). eexists. split; [reflexivity|].
    match goal with
    | |- registry_keyed (mkWorld ?a' _ ?l ?d) =>
        apply (registry_keyed_shrink _ a' l d Hkeyed)
    end; cbn; [auto|].
    intros k c' [_ Hk]%lookup_delete_Some. exact Hk.
  - unfold bind. destruct (channels (application w) !! n) as [c|] eqn:Hn.
    + rewrite (FindOrCreateChannelByChannelID_found n c w Hn). eauto.
    + rewrite (FindOrCreateChannelByChannelID_created n w Hn).
      eexists. split; [reflexivity|]. split; cbn; [exact Hconn|].
      intros k c' [[<- <-]|[_ Hk]]%lookup_insert_Some.
      * rewrite lookup_insert_eq. eauto.
      * destruct (Hchan k c' Hk) as (ch & Hc & Hid).
        rewrite lookup_insert_ne; [eauto|].
        intros <-. rewrite fresh_object_unused in Hc. discriminate.
  - apply bool_decide_eq_true in Hptr as [ch Hc].
    unfold bind, Subscribe, c_Subscribe. rewrite (invoke_spec c ch _ w Hc).
    eexists. split; [reflexivity|].
    by apply (registry_keyed_update w c ch).
  - apply bool_decide_eq_true in Hptr as [ch Hc].
    destruct (Unsubscribe_keyed c ch conn w Hkeyed Hc) as (r & w' & Hrun & Hkeyed').
    unfold bind. rewrite Hrun. eauto.
Qed.

(** X7: from a state whose registries are keyed as the code files
    entries (a fresh Application is one), every sequence of Connect,
    Disconnect, AddChannel, RemoveChannel, FindOrCreateChannelByChannelID,
    Subscribe and Unsubscribe calls that are given no nil channel pointer
    returns, without a panic, and leaves the registries keyed: each
    connection under its own socket identifier, each channel under the
    identifier of its object. *)
Theorem api_run_returns_with_keyed_registries :
  ∀ (calls : list Api) (w : World),
    registry_keyed w →
    pointers_valid calls w →
    ∃ w', api_run calls w = Some (tt, w') ∧ registry_keyed w'.
Proof.
  induction calls as [|a calls IH]; intros w Hkeyed Hvalid.
  - exists w. split; [reflexivity | exact Hkeyed].
  - destruct Hvalid as [Hptr Hrest].
    destruct (api_exec_keyed a w Hkeyed Hptr) as (w1 & Hstep & Hkeyed1).
    destruct (IH w1 Hkeyed1 (Hrest w1 Hstep)) as (w' & Hrun & Hkeyed').
    exists w'. split; [|exact Hkeyed'].
    unfold api_run. cbn [for_range]. unfold bind. rewrite Hstep. exact Hrun.
Qed.

Lemma api_run_returns_with_keyed_registries_witness :
  registry_keyed (fresh_world demo_app ∅)
  ∧ pointers_valid session_calls (fresh_world demo_app ∅)
  ∧ ∃ w', api_run session_calls (fresh_world demo_app ∅) = Some (tt, w')
          ∧ registry_keyed w'.
Proof.
  assert (H1 : registry_keyed (fresh_world demo_app ∅))
    by (apply registry_keyed_fresh; reflexivity).
  assert (H2 : pointers_valid session_calls (fresh_world demo_app ∅))
    by (unfold session_calls; check_pointers).
  split; [exact H1|]. split; [exact H2|].
  exact (api_run_returns_with_keyed_registries session_calls _ H1 H2).
Defined.

Example session_ends_with_empty_registries :
  api_run session_calls (fresh_world demo_app ∅) = Some (tt, world_after_session)
  ∧ connections (application world_after_session) = ∅
  ∧ channels (application world_after_session) = ∅
  ∧ TotalConnections (application world_after_session) = 0
  ∧ TotalChannels (application world_after_session) = 0
  ∧ TotalPresenceChannels (application world_after_session) = 0
  ∧ TotalPublicChannels (application world_after_session) = 0.
Proof. by_evaluation. Qed.

Lemma Disconnect_leaves_the_other_sockets_witness :
  connections (application world_two_members) !! "sock-1" = Some sock1
  ∧ connection.SocketID sock1 = "sock-1"
  ∧ (∀ k c, channels (application world_two_members) !! k = Some c →
            is_Some (objects world_two_members !! c))
  ∧ ∃ w',
      Disconnect "sock-1" world_two_members = Some (tt, w')
      ∧ connections (application w') !! "sock-2" = Some sock2
      ∧ c_IsSubscribed 1%nat sock2 w' = Some (true, w')
      ∧ c_IsSubscribed 1%nat sock1 w' = Some (false, w')
      ∧ c_IsSubscribed 0%nat sock1 w' = Some (true, w').
Proof.
  assert (Hvalid : ∀ k c, channels (application world_two_members) !! k = Some c →
                          is_Some (objects world_two_members !! c)).
  { apply (bool_decide_unpack
             (map_Forall (λ (_ : string) c, is_Some (objects world_two_members !! c))
                         (channels (application world_two_members)))).
    vm_compute. exact I. }
  split; [vm_compute; reflexivity|]. split; [reflexivity|]. split; [exact Hvalid|].
  destruct (Disconnect_leaves_the_other_sockets world_two_members "sock-1" sock1)
    as (w' & Hrun & Hothers & _).
  - vm_compute; reflexivity.
  - reflexivity.
  - exact Hvalid.
  - exists w'. split; [exact Hrun|]. split.
    + rewrite (Hothers "sock-2") by discriminate. vm_compute; reflexivity.
    + revert Hrun. vm_compute. intros [= <-]. repeat apply conj; reflexivity.
Defined.

(** ** The filter queries together *)

Lemma three_way_split {A} (f g h : A → bool) (l : list A) :
  (∀ x, x ∈ l →
        (f x = true ∧ g x = false ∧ h x = false)
        ∨ (f x = false ∧ g x = true ∧ h x = false)
        ∨ (f x = false ∧ g x = false ∧ h x = true)) →
  l ≡ₚ filter (λ x, f x = true) l ++ filter (λ x, g x = true) l
        ++ filter (λ x, h x = true) l.
Proof.
  induction l as [|x l IH]; intros Hone; [reflexivity|].
  rewrite !filter_cons.
  specialize (IH ltac:(intros y Hy; apply Hone; by apply list_elem_of_further)).
  destruct (Hone x ltac:(apply list_elem_of_here))
    as [(Hf & Hg & Hh)|[(Hf & Hg & Hh)|(Hf & Hg & Hh)]];
    rewrite Hf, Hg, Hh;
    repeat case_decide; try discriminate; try congruence.
  - cbn [app]. by rewrite <- IH.
  - cbn [app]. rewrite <- Permutation_middle. by rewrite <- IH.
  - do 2 rewrite <- Permutation_middle. by rewrite <- IH.
Qed.

(** The four queries in closed form, where registered pointers have
    their objects. *)
Lemma filter_queries_closed_form w :
  (∀ k c, channels (application w) !! k = Some c → is_Some (objects w !! c)) →
  Channels w = Some ((map_to_list (channels (application w))).*2, w)
  ∧ PresenceChannels w
    = Some ((filter (λ e, kept_by w channel.IsPresence e.2 = true)
                    (map_to_list (channels (application w)))).*2, w)
  ∧ PrivateChannels w
    = Some ((filter (λ e, kept_by w channel.IsPrivate e.2 = true)
                    (map_to_list (channels (application w)))).*2, w)
  ∧ PublicChannels w
    = Some ((filter (λ e, kept_by w channel.IsPublic e.2 = true)
                    (map_to_list (channels (application w)))).*2, w).
Proof.
  intros Hvalid.
  assert (Hderef : ∀ keep e, e ∈ map_to_list (channels (application w)) →
            (let! ch := deref e.2 in ret (keep ch)) w = Some (kept_by w keep e.2, w)).
  { intros keep [k c] Hin. apply elem_of_map_to_list in Hin.
    destruct (Hvalid k c Hin) as [ch Hch].
    unfold bind, deref, kept_by. cbn. by rewrite Hch. }
  split; [|split; [|split]].
  - unfold Channels, bind, gets.
    rewrite (collect_spec _ (λ _, true)) by reflexivity.
    by rewrite filter_all.
  - unfold PresenceChannels, bind, gets.
    apply (collect_spec c_IsPresence (kept_by w channel.IsPresence)).
    intros e He. apply (Hderef channel.IsPresence e He).
  - unfold PrivateChannels, bind, gets.
    apply (collect_spec c_IsPrivate (kept_by w channel.IsPrivate)).
    intros e He. apply (Hderef channel.IsPrivate e He).
  - unfold PublicChannels, bind, gets.
    apply (collect_spec c_IsPublic (kept_by w channel.IsPublic)).
    intros e He. apply (Hderef channel.IsPublic e He).
Qed.

(** X8: in a state with keyed registries (every state the interface
    reaches from a fresh Application), the four queries return,
    [Channels] lists no pointer twice, and the presence, private and
    public lists together are the list of all channels, up to order: each
    channel of [Channels] is in exactly one of the three. *)
Theorem filter_queries_split_the_registry :
  ∀ w : World,
    registry_keyed w →
    ∃ all presence private public,
      Channels w = Some (all, w)
      ∧ PresenceChannels w = Some (presence, w)
      ∧ PrivateChannels w = Some (private, w)
      ∧ PublicChannels w = Some (public, w)
      ∧ NoDup all
      ∧ all ≡ₚ presence ++ private ++ public.
Proof.
  intros w Hkeyed.
  pose proof (registry_keyed_pointers w Hkeyed) as Hvalid.
  destruct (filter_queries_closed_form w Hvalid) as (Hall & Hpres & Hpriv & Hpub).
  eexists _, _, _, _.
  split; [exact Hall|]. split; [exact Hpres|]. split; [exact Hpriv|]. split; [exact Hpub|].
  split.
  - apply (lists_registered_NoDup w (λ _, true)); [by apply registry_keyed_injective|].
    rewrite <- (filter_all (λ e : string * channel.ptr, true = true)
                           (map_to_list (channels (application w)))) by reflexivity.
    apply (lists_registered_filter w (λ _, true) (λ _, true)).
    intros k c Hk. destruct (Hvalid k c Hk) as [ch Hch]. eauto.
  - rewrite <- !fmap_app. apply fmap_Permutation.
    apply three_way_split. intros [k c] Hin.
    apply elem_of_map_to_list in Hin. destruct (Hvalid k c Hin) as [ch Hch].
    unfold kept_by. cbn. rewrite Hch.
    unfold channel.IsPresence, channel.IsPrivate, channel.IsPublic.
    destruct (channel.kind ch); auto.
Qed.

(** A test of keyedness that evaluates. *)
Lemma registry_keyed_by_evaluation w :
  map_Forall (λ k conn, connection.SocketID conn = k) (connections (application w)) →
  map_Forall (λ k c, channel.ID <$> objects w !! c = Some k) (channels (application w)) →
  registry_keyed w.
Proof.
  intros Hconn Hchan. split; [exact Hconn|].
  intros k c Hk. specialize (Hchan k c Hk). cbn in Hchan.
  destruct (objects w !! c) as [ch|]; [|discriminate].
  exists ch. split; [reflexivity|]. by injection Hchan.
Qed.

Lemma filter_queries_split_the_registry_witness :
  registry_keyed world_four_channels
  ∧ ∃ all presence private public,
      Channels world_four_channels = Some (all, world_four_channels)
      ∧ PresenceChannels world_four_channels = Some (presence, world_four_channels)
      ∧ PrivateChannels world_four_channels = Some (private, world_four_channels)
      ∧ PublicChannels world_four_channels = Some (public, world_four_channels)
      ∧ NoDup all
      ∧ all ≡ₚ presence ++ private ++ public
      ∧ length all = 4%nat.
Proof.
  assert (Hkeyed : registry_keyed world_four_channels).
  { apply registry_keyed_by_evaluation.
    - apply (bool_decide_unpack
               (map_Forall (λ k conn, connection.SocketID conn = k)
                           (connections (application world_four_channels)))).
      vm_compute. exact I.
    - apply (bool_decide_unpack
               (map_Forall
                  (λ k c, channel.ID <$> objects world_four_channels !! c = Some k)
                  (channels (application world_four_channels)))).
      vm_compute. exact I. }
  split; [exact Hkeyed|].
  destruct (filter_queries_split_the_registry world_four_channels Hkeyed)
    as (all & presence & private & public & Hall & Hpres & Hpriv & Hpub & Hnodup & Hperm).
  exists all, presence, private, public. repeat (split; [assumption|]).
  revert Hall. vm_compute. intros [= <-]. reflexivity.
Defined.

(** ** The counters over the whole interface *)

Lemma api_exec_tracks a w w' :
  api_well_used a w = true →
  api_exec a w = Some (tt, w') →
  counters_track (application w) → counters_track (application w').
Proof.
  destruct a as [conn|socketID|c|c|n|c conn data|c conn]; cbn [api_well_used api_exec].
  - apply (exec_tracks (OpConnect conn)).
  - apply (exec_tracks (OpDisconnect socketID)).
  - apply (exec_tracks (OpAddChannel c)).
  - apply (exec_tracks (OpRemoveChannel c)).
  - intros _. unfold bind.
    destruct (channels (application w) !! n) as [c|] eqn:Hn.
    + rewrite (FindOrCreateChannelByChannelID_found n c w Hn). by intros [= <-].
    + rewrite (FindOrCreateChannelByChannelID_created n w Hn). intros [= <-].
      set (c := fresh (dom (objects w))).
      set (w1 := mkWorld (application w) (<[c := wired_channel n]> (objects w))
                         (logged w) (dispatched w)).
      apply (AddChannel_tracks c (wired_channel n) w1).
      * apply lookup_insert_eq.
      * exact Hn.
      * erewrite AddChannel_spec by apply lookup_insert_eq. reflexivity.
  - intros [ch Hc]%bool_decide_eq_true.
    unfold bind, Subscribe, c_Subscribe. rewrite (invoke_spec c ch _ w Hc).
    by intros [= <-].
  - cbn [well_used]. destruct (objects w !! c) as [ch|] eqn:Hc; [|discriminate].
    intros [old Hold]%bool_decide_eq_true.
    unfold bind. rewrite (Unsubscribe_spec c ch conn w Hc). cbn zeta.
    destruct (channel.err _); [by intros [= <-]|].
    destruct (channel.IsOccupied _); [by intros [= <-]|].
    match goal with
    | |- context [RemoveChannel c ?w1] =>
        destruct (RemoveChannel c w1) as [[[] w2]|] eqn:Hremove; [|discriminate];
        intros [= <-];
        apply (RemoveChannel_tracks c (channel.after (channel.Unsubscribe c ch conn))
                                    old w1)
    end.
    + apply lookup_insert_eq.
    + cbn. by rewrite channel_Unsubscribe_ID.
    + exact Hremove.
Qed.

Lemma api_run_well_used_tracks calls w w' :
  api_run_well_used calls w = Some w' →
  counters_track (application w) → counters_track (application w').
Proof.
  revert w. induction calls as [|a calls IH]; intros w; cbn [api_run_well_used].
  - intros [= <-]. auto.
  - destruct (api_well_used a w) eqn:Hused; [|discriminate].
    destruct (api_exec a w) as [[[] w1]|] eqn:Hexec; [|discriminate].
    intros Hrest Htrack. apply (IH w1 Hrest). by apply (api_exec_tracks a w).
Qed.

Lemma api_run_well_used_run calls w w' :
  api_run_well_used calls w = Some w' → api_run calls w = Some (tt, w').
Proof.
  revert w. induction calls as [|a calls IH]; intros w; cbn [api_run_well_used].
  - intros [= <-]. reflexivity.
  - destruct (api_well_used a w); [|discriminate].
    unfold api_run. cbn [for_range]. unfold bind.
    destruct (api_exec a w) as [[[] w1]|]; [apply IH | discriminate].
Qed.

(** X9: the counters stay exact over the calls the transport layer makes.
    From a fresh Application, after any sequence of Connect (of socket
    identifiers not registered), Disconnect,
    FindOrCreateChannelByChannelID, Subscribe, Unsubscribe and
    RemoveChannel (of channels whose identifier is registered) and
    AddChannel (of identifiers not registered), TotalConnections and
    TotalChannels are the sizes of the two registries and the per-kind
    counters sum to TotalChannels (registries of fewer than 2^63
    entries). FindOrCreateChannelByChannelID and Subscribe need no
    condition. *)
Theorem counters_match_registries_over_the_interface :
  ∀ (name appID key secret : string) (onlySSL enabled userEvents webHooks : bool)
    (url : string) (objs : gmap channel.ptr channel.Channel) (calls : list Api) (w : World),
    api_run_well_used calls
      (fresh_world (NewApplication name appID key secret onlySSL enabled
                                   userEvents webHooks url) objs) = Some w →
    Z.of_nat (size (connections (application w))) < 2 ^ 63 →
    Z.of_nat (size (channels (application w))) < 2 ^ 63 →
    api_run calls (fresh_world (NewApplication name appID key secret onlySSL enabled
                                               userEvents webHooks url) objs)
    = Some (tt, w)
    ∧ counters_match (application w).
Proof.
  intros name appID key secret onlySSL enabled userEvents webHooks url objs calls w
         Hrun Hbc Hbh.
  split; [by apply api_run_well_used_run|].
  apply counters_track_match; [|exact Hbc|exact Hbh].
  apply (api_run_well_used_tracks calls _ w Hrun). cbn [fresh_world application].
  apply counters_track_fresh.
Qed.

Lemma counters_match_registries_over_the_interface_witness :
  api_run_well_used two_members_calls
    (fresh_world demo_app {[ 0%nat := channel.New "private-chat" [] ]})
  = Some world_two_members
  ∧ Z.of_nat (size (connections (application world_two_members))) < 2 ^ 63
  ∧ Z.of_nat (size (channels (application world_two_members))) < 2 ^ 63
  ∧ counters_match (application world_two_members)
  ∧ TotalConnections (application world_two_members) = 2
  ∧ TotalChannels (application world_two_members) = 1.
Proof.
  assert (H1 : api_run_well_used two_members_calls
                 (fresh_world demo_app {[ 0%nat := channel.New "private-chat" [] ]})
               = Some world_two_members) by (vm_compute; reflexivity).
  assert (H2 : Z.of_nat (size (connections (application world_two_members))) < 2 ^ 63)
    by (vm_compute; reflexivity).
  assert (H3 : Z.of_nat (size (channels (application world_two_members))) < 2 ^ 63)
    by (vm_compute; reflexivity).
  split; [exact H1|]. split; [exact H2|]. split; [exact H3|]. split.
  - exact (proj2 (counters_match_registries_over_the_interface
                    "demo" "1" "key" "secret" false true true true "http://hooks"
                    _ two_members_calls world_two_members H1 H2 H3)).
  - by_evaluation.
Defined.

(** ** Finding, creating, and a new Application *)

(** X10: [FindOrCreateChannelByChannelID] is idempotent. Whatever the
    state, a second call with the same identifier returns the same
    pointer and changes nothing, not even a counter or the log; the
    first call added at most one entry. *)
Theorem FindOrCreateChannelByChannelID_idempotent :
  ∀ (w : World) (n : string),
    ∃ c w1,
      FindOrCreateChannelByChannelID n w = Some (c, w1)
      ∧ channels (application w1) !! n = Some c
      ∧ FindOrCreateChannelByChannelID n w1 = Some (c, w1)
      ∧ (size (channels (application w1)) ≤ S (size (channels (application w))))%nat.
Proof.
  intros w n. destruct (channels (application w) !! n) as [c|] eqn:Hn.
  - exists c, w. rewrite (FindOrCreateChannelByChannelID_found n c w Hn). auto.
  - rewrite (FindOrCreateChannelByChannelID_created n w Hn).
    eexists _, _. split; [reflexivity|].
    assert (Hreg : ∀ m : gmap string channel.ptr, <[n := fresh (dom (objects w))]> m !! n
                   = Some (fresh (dom (objects w)))) by (intros; apply lookup_insert_eq).
    split; [apply Hreg|]. split.
    + apply FindOrCreateChannelByChannelID_found. apply Hreg.
    + cbn. by rewrite (map_size_insert_None _ _ _ Hn).
Qed.

(** X11: a new Application is empty. Beside any store of channel
    objects, every connection lookup and every channel lookup reports its
    not-found error, the four queries return no channel, the counters
    match the registries with TotalConnections and TotalChannels at zero,
    and a [Disconnect] leaves the Application as it is. *)
Theorem NewApplication_is_empty :
  ∀ (name appID key secret : string) (onlySSL enabled userEvents webHooks : bool)
    (url : string) (objs : gmap channel.ptr channel.Channel) (id : string),
    let a := NewApplication name appID key secret onlySSL enabled userEvents webHooks url in
    let w := fresh_world a objs in
    FindConnection id w = Some (Fail "connection not found", w)
    ∧ FindChannelByChannelID id w = Some (Fail "channel does not exists", w)
    ∧ Channels w = Some ([], w)
    ∧ PresenceChannels w = Some ([], w)
    ∧ PrivateChannels w = Some ([], w)
    ∧ PublicChannels w = Some ([], w)
    ∧ counters_match a
    ∧ TotalConnections a = 0 ∧ TotalChannels a = 0
    ∧ ∃ w', Disconnect id w = Some (tt, w') ∧ application w' = a ∧ objects w' = objs.
Proof.
  intros name appID key secret onlySSL enabled userEvents webHooks url objs id a w.
  split; [by rewrite FindConnection_spec|].
  split; [by rewrite FindChannelByChannelID_spec|].
  assert (Hnone : map_to_list (channels (application w)) = []) by apply map_to_list_empty.
  split; [unfold Channels, bind, gets; by rewrite Hnone|].
  split; [unfold PresenceChannels, bind, gets; by rewrite Hnone|].
  split; [unfold PrivateChannels, bind, gets; by rewrite Hnone|].
  split; [unfold PublicChannels, bind, gets; by rewrite Hnone|].
  split; [|split; [reflexivity|split; [reflexivity|]]].
  - unfold counters_match, TotalConnections, TotalChannels, TotalPresenceChannels,
      TotalPrivateChannels, TotalPublicChannels.
    subst a. cbn [NewApplication connections channels Stats].
    rewrite !map_size_empty. unfold expvar_Get. rewrite !lookup_empty. by cbn.
  - destruct (Disconnect_miss id w) as (w' & Hrun & Happ & Hobj & _); [reflexivity|].
    exists w'. auto.
Qed.

(** ** Application.Publish *)

(** X12: [Application.Publish] counts the message before it hands it to
    the channel, so TotalUniqueMessages goes up by one (as an int64) also
    when [Channel.Publish] returns an error, which [Publish] passes on.
    For any [Channel.Publish] that leaves the Application alone, both
    registries and every other counter are untouched, so counters that
    matched the registries still match. *)
Theorem Publish_counts_every_message :
  ∀ (Raw : Type) (c_Publish : channel.ptr → Raw → string → M (option error)),
    (∀ c event ignore w r w',
        c_Publish c event ignore w = Some (r, w') → application w' = application w) →
    ∀ (c : channel.ptr) (event : Raw) (ignore : string) (w : World) r w',
      Publish c_Publish c event ignore w = Some (r, w') →
      c_Publish c event ignore
        (mkWorld (with_Stats (application w)
                             (expvar_Add (Stats (application w)) "TotalUniqueMessages" 1))
                 (objects w) (logged w) (dispatched w)) = Some (r, w')
      ∧ expvar_Get (Stats (application w')) "TotalUniqueMessages"
        = wrap64 (expvar_Get (Stats (application w)) "TotalUniqueMessages" + 1)
      ∧ connections (application w') = connections (application w)
      ∧ channels (application w') = channels (application w)
      ∧ (∀ key, key ≠ "TotalUniqueMessages" →
                expvar_Get (Stats (application w')) key
                = expvar_Get (Stats (application w)) key)
      ∧ (counters_match (application w) → counters_match (application w')).
Proof.
  intros Raw c_Publish Hframe c event ignore w r w' Hrun.
  unfold Publish, bind, Stats_Add, update_application, modify in Hrun.
  split; [exact Hrun|]. apply Hframe in Hrun.
  assert (Hother : ∀ key, key ≠ "TotalUniqueMessages" →
                          expvar_Get (Stats (application w')) key
                          = expvar_Get (Stats (application w)) key).
  { intros key Hne. rewrite Hrun. cbn. by rewrite expvar_Get_Add_ne. }
  split; [rewrite Hrun; cbn; apply expvar_Get_Add_eq|].
  split; [by rewrite Hrun|]. split; [by rewrite Hrun|]. split; [exact Hother|].
  unfold counters_match, TotalConnections, TotalChannels, TotalPresenceChannels,
    TotalPrivateChannels, TotalPublicChannels.
  rewrite !Hother by discriminate. by rewrite Hrun.
Qed.

Lemma Publish_counts_every_message_witness :
  (∀ c event ignore w r w',
      failing_c_Publish c event ignore w = Some (r, w') → application w' = application w)
  ∧ ∃ w',
      Publish failing_c_Publish 0%nat "client-typing" "sock-1" world_subscribed
      = Some (Some "publish failed", w')
      ∧ expvar_Get (Stats (application w')) "TotalUniqueMessages" = 1
      ∧ counters_match (application w').
Proof.
  assert (Hframe : ∀ c event ignore w r w',
             failing_c_Publish c event ignore w = Some (r, w') →
             application w' = application w).
  { intros c event ignore w r w'. unfold failing_c_Publish, ret. by intros [= _ <-]. }
  split; [exact Hframe|].
  eexists. split; [vm_compute; reflexivity|].
  match goal with
  | |- context [application ?w'] =>
      destruct (Publish_counts_every_message string failing_c_Publish Hframe
                  0%nat "client-typing" "sock-1" world_subscribed
                  (Some "publish failed") w' ltac:(vm_compute; reflexivity))
      as (_ & Hcount & _ & _ & _ & Hmatch)
  end.
  split.
  - etransitivity; [exact Hcount|]. vm_compute; reflexivity.
  - apply Hmatch. repeat apply conj; vm_compute; reflexivity.
Defined.

(** ** Joining and leaving a channel *)

Lemma wired_channel_unoccupied n : channel.IsOccupied (wired_channel n) = false.
Proof.
  unfold channel.IsOccupied, wired_channel. cbn [channel.Subscriptions].
  rewrite dom_empty_L. by rewrite bool_decide_eq_true_2.
Qed.

Lemma channel_join_leave c n conn data :
  let s := channel.mkSubscription conn c data in
  let o1 := channel.Subscribe c (wired_channel n) conn data in
  let o2 := channel.Unsubscribe c (channel.after o1) conn in
  channel.err o1 = None
  ∧ channel.err o2 = None
  ∧ channel.after o2 = wired_channel n
  ∧ map webhook_of (channel.calls o1)
    = mkWebhook channel_occupied c None
        :: (if channel.IsPresence (wired_channel n)
            then [mkWebhook member_added c (Some s)] else [])
  ∧ map webhook_of (channel.calls o2)
    = (if channel.IsPresence (wired_channel n)
       then [mkWebhook member_removed c (Some s)] else [])
        ++ [mkWebhook channel_vacated c None].
Proof.
  intros s o1 o2.
  assert (Ho1 : o1 = channel.mkOutcome
                       (channel.with_Subscriptions (wired_channel n)
                          (<[connection.SocketID conn := s]> ∅))
                       (channel.mkCall CallTriggerChannelOccupiedHook c s None
                          :: (if channel.IsPresence (wired_channel n)
                              then [channel.mkCall CallTriggerMemberAddedHook c s None]
                              else []))
                       None).
  { subst o1. unfold channel.Subscribe. rewrite wired_channel_unoccupied.
    cbn [wired_channel channel.Subscriptions]. rewrite lookup_empty.
    by destruct (channel.IsPresence _). }
  assert (Ho2 : o2 = channel.mkOutcome
                       (wired_channel n)
                       ((if channel.IsPresence (wired_channel n)
                         then [channel.mkCall CallTriggerMemberRemovedHook c s None]
                         else [])
                          ++ [channel.mkCall CallTriggerChannelVacatedHook c s None])
                       None).
  { subst o2. rewrite Ho1. unfold channel.Unsubscribe.
    cbn [channel.after channel.with_Subscriptions channel.Subscriptions].
    rewrite lookup_insert_eq, delete_insert_eq, delete_empty.
    change (channel.with_Subscriptions _ ∅) with (wired_channel n).
    rewrite wired_channel_unoccupied.
    change (channel.IsPresence (channel.mkChannel _ _ _ _ _ _ _))
      with (channel.IsPresence (wired_channel n)).
    by destruct (channel.IsPresence _). }
  rewrite Ho1, Ho2. cbn [channel.err channel.after channel.calls].
  split; [reflexivity|]. split; [reflexivity|]. split; [reflexivity|].
  split; by destruct (channel.IsPresence _).
Qed.

(** X13: joining a channel that does not exist yet and leaving it again
    gives the registries back. [FindOrCreateChannelByChannelID n], then
    [Subscribe] and [Unsubscribe] of one connection on the channel
    returned, all return without error; the channel registry and the
    connection registry are as before, the identifier is unknown again,
    every counter that held an int64 has its value again, and the
    webhooks triggered are Occupied, MemberAdded and MemberRemoved on a
    presence channel, and Vacated, in this order. The channel object is
    left in the store, unregistered and empty. *)
Theorem join_and_leave_restores_the_registry :
  ∀ (w : World) (n : string) (conn : connection.Connection) (data : string),
    channels (application w) !! n = None →
    ∃ c w',
      join_and_leave n conn data w = Some ((c, None, None), w')
      ∧ objects w !! c = None
      ∧ objects w' = <[c := wired_channel n]> (objects w)
      ∧ channels (application w') = channels (application w)
      ∧ connections (application w') = connections (application w)
      ∧ FindChannelByChannelID n w' = Some (Fail "channel does not exists", w')
      ∧ (∀ key, int64 (expvar_Get (Stats (application w)) key) →
                expvar_Get (Stats (application w')) key
                = expvar_Get (Stats (application w)) key)
      ∧ dispatched w'
        = dispatched w
            ++ [mkWebhook channel_occupied c None]
            ++ (if channel.IsPresence (wired_channel n)
                then [mkWebhook member_added c (Some (channel.mkSubscription conn c data));
                      mkWebhook member_removed c (Some (channel.mkSubscription conn c data))]
                else [])
            ++ [mkWebhook channel_vacated c None].
Proof.
  intros w n conn data Hn.
  set (c := fresh (dom (objects w))).
  destruct (channel_join_leave c n conn data) as (He1 & He2 & Hafter & Hcalls1 & Hcalls2).
  cbv zeta in He1, He2, Hafter, Hcalls1, Hcalls2.
  exists c. unfold join_and_leave, bind.
  rewrite (FindOrCreateChannelByChannelID_created n w Hn). fold c. cbv beta iota.
  unfold Subscribe, c_Subscribe.
  erewrite invoke_spec by (cbn [objects]; apply lookup_insert_eq).
  rewrite He1, Hcalls1. cbv beta iota.
  erewrite Unsubscribe_spec by (cbn [objects]; apply lookup_insert_eq).
  cbv zeta. rewrite He2, Hafter, Hcalls2, wired_channel_unoccupied.
  erewrite RemoveChannel_spec by (cbn [objects]; apply lookup_insert_eq).
  eexists. split; [reflexivity|].
  cbn [application objects dispatched channels connections Stats with_Stats with_channels
       wired_channel channel.ID].
  split; [apply fresh_object_unused|].
  split; [by rewrite !insert_insert_eq|].
  assert (Hback : delete n (<[n := c]> (channels (application w))) = channels (application w))
    by (by rewrite delete_insert_eq, delete_id).
  split; [exact Hback|]. split; [reflexivity|].
  split.
  { rewrite FindChannelByChannelID_spec.
    cbn [application channels with_Stats with_channels]. by rewrite Hback, Hn. }
  split.
  { intros key. apply adjust_counters_there_and_back. }
  destruct (channel.IsPresence (wired_channel n)); cbn; by rewrite <- !app_assoc.
Qed.

Lemma join_and_leave_restores_the_registry_witness :
  channels (application world_subscribed) !! "lobby" = None
  ∧ ∃ c w',
      join_and_leave "lobby" sock2 "" world_subscribed = Some ((c, None, None), w')
      ∧ channels (application w') = channels (application world_subscribed)
      ∧ TotalChannels (application w') = 1
      ∧ TotalPublicChannels (application w') = 0.
Proof.
  split; [vm_compute; reflexivity|].
  destruct (join_and_leave_restores_the_registry world_subscribed "lobby" sock2 "")
    as (c & w' & Hrun & _ & _ & Hch & _ & _ & Hstats & _).
  - vm_compute; reflexivity.
  - exists c, w'. split; [exact Hrun|]. split; [exact Hch|].
    unfold TotalChannels, TotalPublicChannels.
    split; (rewrite Hstats;
            [vm_compute; reflexivity | vm_compute; split; [discriminate | reflexivity]]).
Defined.

(** ** Removal is by identifier *)

(** X14: [RemoveChannel c] removes by identifier, not by pointer. After
    it, [FindChannelByChannelID] reports its not-found error for the
    identifier of [c], also when the object registered under that
    identifier was another one; every other identifier is answered as
    before, and no channel object changes. *)
Theorem RemoveChannel_then_FindChannelByChannelID :
  ∀ (w : World) (c : channel.ptr) (ch : channel.Channel),
    objects w !! c = Some ch →
    ∃ w',
      RemoveChannel c w = Some (tt, w')
      ∧ FindChannelByChannelID (channel.ID ch) w'
        = Some (Fail "channel does not exists", w')
      ∧ objects w' = objects w
      ∧ ∀ n, n ≠ channel.ID ch →
             fst <$> FindChannelByChannelID n w' = fst <$> FindChannelByChannelID n w.
Proof.
  intros w c ch Hc. rewrite (RemoveChannel_spec c ch w Hc).
  eexists. split; [reflexivity|]. split; [|split; [reflexivity|]].
  - rewrite FindChannelByChannelID_spec. cbn. by rewrite lookup_delete_eq.
  - intros n Hne. rewrite !FindChannelByChannelID_spec. cbn.
    by rewrite lookup_delete_ne.
Qed.

Lemma RemoveChannel_then_FindChannelByChannelID_witness :
  objects world_two_members !! 0%nat
  = Some (channel.after (channel.Subscribe 0%nat (channel.New "private-chat" []) sock1 ""))
  ∧ ∃ w',
      RemoveChannel 0%nat world_two_members = Some (tt, w')
      ∧ fst <$> FindChannelByChannelID "private-chat" w'
        = Some (Fail "channel does not exists")
      ∧ fst <$> FindChannelByChannelID "presence-room" w' = Some (Ok 1%nat).
Proof.
  split; [vm_compute; reflexivity|].
  destruct (RemoveChannel_then_FindChannelByChannelID world_two_members 0%nat
              (channel.after (channel.Subscribe 0%nat (channel.New "private-chat" []) sock1 "")))
    as (w' & Hrun & Hfind & _ & Hother).
  - vm_compute; reflexivity.
  - exists w'. split; [exact Hrun|]. split.
    + replace (FindChannelByChannelID "private-chat" w')
        with (Some (Fail (T := channel.ptr) "channel does not exists", w'))
        by (symmetry; exact Hfind).
      reflexivity.
    + rewrite (Hother "presence-room") by discriminate. vm_compute; reflexivity.
Defined.

(** The same removal when another object holds the identifier: the
    registered object is unregistered by a call on its namesake. *)
Example RemoveChannel_unregisters_a_namesake :
  ∃ w1 w2,
    run [OpAddChannel 0%nat]
        (fresh_world demo_app {[ 0%nat := channel.New "lobby" [];
                                 1%nat := channel.New "lobby" [] ]}) = Some (tt, w1)
    ∧ FindChannelByChannelID "lobby" w1 = Some (Ok 0%nat, w1)
    ∧ RemoveChannel 1%nat w1 = Some (tt, w2)
    ∧ FindChannelByChannelID "lobby" w2 = Some (Fail "channel does not exists", w2).
Proof. eexists _, _. by_evaluation. Qed.
